(** * spongecake examples: flight-price checker and interactive prospecting run

    A shallow embedding of [examples/concurrency_example.py] and
    [examples/linkedin_example.py].

    Python integers are [Z], strings are [string] (one character per
    code point, for the code points below 256), dictionaries are [gmap]s.
    A call that may raise is a value of [result]; the calls made on the
    [Desktop] object are recorded, in order, in a trace of [event]s.  Log
    and print statements are not part of the model.  The built-in
    functions and [datetime] are those of CPython 3.11, with the C
    implementation of [datetime] and a C [long] of 64 bits. *)

From Stdlib Require Import ZArith List Bool Ascii String Lia Permutation.
From stdpp Require Import base option list gmap strings pretty.
Import ListNotations.

Local Open Scope string_scope.
Local Open Scope Z_scope.

(* ===================================================================== *)
(** ** Exceptions *)
(* ===================================================================== *)

Module Py.

(** The exception classes that the modelled code can meet.  The last two
    derive from [BaseException] and not from [Exception]. *)
Inductive exn_class : Type :=
  | ValueError
  | OverflowError
  | KeyError
  | AttributeError
  | RuntimeError
  | KeyboardInterrupt
  | SystemExit.

(** An exception object: its class and [str(e)]. *)
Record exn : Type := Exn { exn_cls : exn_class; exn_str : string }.

(** [isinstance(e, Exception)]. *)
Definition is_Exception (e : exn) : bool :=
  match exn_cls e with
  | KeyboardInterrupt | SystemExit => false
  | _ => true
  end.

(** The outcome of a call: a value, or a raised exception. *)
Inductive result (A : Type) : Type :=
  | Ok (a : A)
  | Raise (e : exn).
Arguments Ok {A} a.
Arguments Raise {A} e.

#[export] Instance result_ret : MRet result := fun A a => Ok a.

#[export] Instance result_bind : MBind result := fun A B k r =>
  match r with
  | Ok a => k a
  | Raise e => Raise e
  end.

Definition is_ok {A : Type} (r : result A) : bool :=
  match r with Ok _ => true | Raise _ => false end.

(* --------------------------------------------------------------------- *)
(** *** Strings: [strip], [lower], [repr], [str(int)] *)

Definition chars (s : string) : list ascii := list_ascii_of_string s.

Definition code (c : ascii) : Z := Z.of_nat (nat_of_ascii c).

(** [str.isspace] of one character: TAB..CR, FS..US, the blank, NEL and
    the no-break space. *)
Definition is_space (c : ascii) : bool :=
  let n := code c in
  ((9 <=? n) && (n <=? 13)) || ((28 <=? n) && (n <=? 32))
  || (n =? 133) || (n =? 160).

(** The white space that [int] and [float] skip at both ends of their
    argument: they turn the white space from U+007F on into blanks and
    then skip the white space of C, so that FS, GS, RS and US are not
    skipped. *)
Definition is_number_space (c : ascii) : bool :=
  let n := code c in
  ((9 <=? n) && (n <=? 13)) || (n =? 32) || (n =? 133) || (n =? 160).

Fixpoint lstrip (space : ascii -> bool) (cs : list ascii) : list ascii :=
  match cs with
  | [] => []
  | c :: t => if space c then lstrip space t else cs
  end.

Fixpoint rstrip (space : ascii -> bool) (cs : list ascii) : list ascii :=
  match cs with
  | [] => []
  | c :: t =>
      match rstrip space t with
      | [] => if space c then [] else [c]
      | t' => c :: t'
      end
  end.

(** [s.strip()]. *)
Definition strip (s : string) : string :=
  string_of_list_ascii (rstrip is_space (lstrip is_space (chars s))).

(** The lower case of an ASCII letter, as C's [tolower] gives it. *)
Definition ascii_lower_char (c : ascii) : ascii :=
  let n := nat_of_ascii c in
  if (Nat.leb 65 n && Nat.leb n 90)%nat then ascii_of_nat (n + 32) else c.

(** The lower case of one character: of A..Z, and of the capital letters
    from U+00C0 to U+00DE, the multiplication sign U+00D7 apart. *)
Definition lower_char (c : ascii) : ascii :=
  let n := nat_of_ascii c in
  if (Nat.leb 65 n && Nat.leb n 90)%nat
     || (Nat.leb 192 n && Nat.leb n 222 && negb (Nat.eqb n 215))%nat
  then ascii_of_nat (n + 32) else c.

(** [s.lower()]. *)
Definition lower (s : string) : string :=
  string_of_list_ascii (map lower_char (chars s)).

(** [str(n)] for an integer. *)
Definition str_int (n : Z) : string := pretty n.

(** [str.isprintable] of one character. *)
Definition is_printable (c : ascii) : bool :=
  let n := code c in
  ((32 <=? n) && (n <? 127)) || ((161 <=? n) && negb (n =? 173)).

Definition hex_digit (n : Z) : ascii :=
  nth (Z.to_nat n) (chars "0123456789abcdef") "0"%char.

(** One character of [repr(s)] between the quotes [quote]. *)
Definition repr_char (quote c : ascii) : list ascii :=
  if Ascii.eqb c quote || Ascii.eqb c "\" then ["\"; c]%char
  else if Ascii.eqb c "009" then ["\"; "t"]%char
  else if Ascii.eqb c "010" then ["\"; "n"]%char
  else if Ascii.eqb c "013" then ["\"; "r"]%char
  else if is_printable c then [c]
  else ["\"; "x"; hex_digit (code c / 16); hex_digit (code c mod 16)]%char.

(** [repr(s)] for a string: between single quotes, or between double
    quotes when the string has a single quote and no double quote. *)
Definition repr (s : string) : string :=
  let cs := chars s in
  let quote :=
    if existsb (Ascii.eqb "'") cs && negb (existsb (Ascii.eqb "034") cs)
    then "034"%char else "'"%char in
  string_of_list_ascii (quote :: flat_map (repr_char quote) cs ++ [quote]).

(* --------------------------------------------------------------------- *)
(** *** [int(s)] *)

Definition is_digit (c : ascii) : bool :=
  let n := nat_of_ascii c in (Nat.leb 48 n && Nat.leb n 57)%nat.

Definition digit_val (c : ascii) : Z := Z.of_nat (nat_of_ascii c) - 48.

(** The rest of a [digitpart] after its first digit: digits, each
    optionally preceded by one underscore.  Returns the digits read and
    the unread input. *)
Fixpoint digits_tail (cs : list ascii) : list Z * list ascii :=
  match cs with
  | [] => ([], [])
  | c :: t =>
      if is_digit c then
        let '(ds, r) := digits_tail t in (digit_val c :: ds, r)
      else if Ascii.eqb c "_" then
        match t with
        | c2 :: t2 =>
            if is_digit c2 then
              let '(ds, r) := digits_tail t2 in (digit_val c2 :: ds, r)
            else ([], cs)
        | [] => ([], cs)
        end
      else ([], cs)
  end.

(** [digitpart ::= digit (["_"] digit)*]. *)
Definition digitpart (cs : list ascii) : option (list Z * list ascii) :=
  match cs with
  | c :: t =>
      if is_digit c then
        let '(ds, r) := digits_tail t in Some (digit_val c :: ds, r)
      else None
  | [] => None
  end.

Definition digits_value (ds : list Z) : Z :=
  fold_left (fun acc d => 10 * acc + d) ds 0.

(** An optional sign: whether it is a minus, and the unread input. *)
Definition sign (cs : list ascii) : bool * list ascii :=
  match cs with
  | "-"%char :: t => (true, t)
  | "+"%char :: t => (false, t)
  | _ => (false, cs)
  end.

(** The argument of a number without the white space at its ends. *)
Definition number_chars (s : string) : list ascii :=
  rstrip is_number_space (lstrip is_number_space (chars s)).

(** The most digits that [int] converts. *)
Definition MAX_STR_DIGITS : Z := 4300.

(** The first [n] characters of a string. *)
Definition truncate (n : nat) (s : string) : string :=
  string_of_list_ascii (firstn n (chars s)).

Definition invalid_literal (s : string) : exn :=
  Exn ValueError
      ("invalid literal for int() with base 10: " ++ truncate 200 (repr s)).

(** [int(s)] for a string: surrounding white space, a sign, a digitpart.
    The digits are counted before what follows them is looked at. *)
Definition int (s : string) : result Z :=
  let '(neg, cs) := sign (number_chars s) in
  match digitpart cs with
  | Some (ds, rest) =>
      match rest with
      | "_"%char :: _ => Raise (invalid_literal s)
      | _ =>
          if MAX_STR_DIGITS <? Z.of_nat (length ds) then
            Raise (Exn ValueError
                     ("Exceeds the limit (4300 digits) for integer string "
                      ++ "conversion: value has "
                      ++ str_int (Z.of_nat (length ds))
                      ++ " digits; use sys.set_int_max_str_digits() "
                      ++ "to increase the limit"))
          else
            match rest with
            | [] => Ok (if neg then - digits_value ds else digits_value ds)
            | _ => Raise (invalid_literal s)
            end
      end
  | None => Raise (invalid_literal s)
  end.

(* --------------------------------------------------------------------- *)
(** *** [float]: IEEE 754 binary64 values, their order, and [float(s)] *)

(** A float is a NaN, an infinity, or a finite value.  The finite value
    [x] is kept as the integer [x * 2^1074], every finite binary64 number
    being a multiple of [2^-1074]; the two zeros, which compare equal, are
    one value here. *)
Inductive float : Type :=
  | NaN
  | Inf (negative : bool)
  | Finite (scaled : Z).

Definition inf : float := Inf false.

(** [a < b] on floats. *)
Definition float_lt (a b : float) : bool :=
  match a, b with
  | NaN, _ | _, NaN => false
  | Inf true, Inf true => false
  | Inf true, _ => true
  | _, Inf true => false
  | Inf false, _ => false
  | Finite _, Inf false => true
  | Finite x, Finite y => x <? y
  end.

(** [p / q] rounded to the nearest integer, ties to even ([0 < q]). *)
Definition round_half_even (p q : Z) : Z :=
  let d := p / q in
  let r := p mod q in
  if 2 * r <? q then d
  else if q <? 2 * r then d + 1
  else if Z.even d then d else d + 1.

(** The binary64 value nearest to [p / q] ([0 <= p], [0 < q]), with the
    sign [neg]: 53 significant bits, the spacing [2^-1074] below
    [2^-1021], infinity from [2^1024] on. *)
Definition binary64 (neg : bool) (p q : Z) : float :=
  let P := p * 2 ^ 1074 in
  let j := Z.max 0 (Z.log2 (P / q) - 52) in
  let K := round_half_even P (q * 2 ^ j) * 2 ^ j in
  if 2 ^ 2098 <=? K then Inf neg
  else Finite (if neg then - K else K).

(** [float(n)] for an integer. *)
Definition float_of_int (n : Z) : float := binary64 (n <? 0) (Z.abs n) 1.

(** [exponent ::= ("e" | "E") ["+" | "-"] digitpart]; absent when the
    input does not start with one. *)
Definition exponent (cs : list ascii) : Z * list ascii :=
  match cs with
  | c :: t =>
      if Ascii.eqb c "e" || Ascii.eqb c "E" then
        let '(neg, t') := sign t in
        match digitpart t' with
        | Some (ds, r) =>
            (if neg then - digits_value ds else digits_value ds, r)
        | None => (0, cs)
        end
      else (0, cs)
  | [] => (0, [])
  end.

(** [floatnumber ::= ([digitpart] "." digitpart | digitpart ["."])
    [exponent]], up to the end of the input. *)
Definition floatnumber (neg : bool) (cs : list ascii) : option float :=
  let '(ip, cs1) :=
    match digitpart cs with
    | Some (ds, r) => (ds, r)
    | None => ([], cs)
    end in
  let '(fp, cs2) :=
    match cs1 with
    | "."%char :: t =>
        match digitpart t with
        | Some (ds, r) => (ds, r)
        | None => ([], t)
        end
    | _ => ([], cs1)
    end in
  match (ip ++ fp)%list with
  | [] => None
  | ds =>
      let '(e, cs3) := exponent cs2 in
      match cs3 with
      | [] =>
          let m := digits_value ds in
          let e' := e - Z.of_nat (length fp) in
          Some (if 0 <=? e' then binary64 neg (m * 10 ^ e') 1
                else binary64 neg m (10 ^ (- e')))
      | _ => None
      end
  end.

(** [infinity ::= "Infinity" | "inf"], [nan ::= "nan"], in any case. *)
Definition inf_or_nan (neg : bool) (cs : list ascii) : option float :=
  match map ascii_lower_char cs with
  | ["i"; "n"; "f"]%char
  | ["i"; "n"; "f"; "i"; "n"; "i"; "t"; "y"]%char => Some (Inf neg)
  | ["n"; "a"; "n"]%char => Some NaN
  | _ => None
  end.

(** [float(s)] for a string; [None] stands for [ValueError]. *)
Definition float_of_string (s : string) : option float :=
  let '(neg, cs) := sign (number_chars s) in
  match cs with
  | [] => None
  | c :: _ =>
      if is_digit c || Ascii.eqb c "." then floatnumber neg cs
      else inf_or_nan neg cs
  end.

End Py.

(* ===================================================================== *)
(** ** [datetime.date] and [datetime.timedelta] *)
(* ===================================================================== *)

(** The proleptic Gregorian calendar of CPython's [datetime] module: a
    date is converted to and from its ordinal (1 = 0001-01-01). *)
Module Calendar.
Import Py.

Definition MINYEAR : Z := 1.
Definition MAXYEAR : Z := 9999.
Definition MAXORDINAL : Z := 3652059.

Definition DAYS_IN_MONTH : list Z :=
  [-1; 31; 28; 31; 30; 31; 30; 31; 31; 30; 31; 30; 31].

Definition DAYS_BEFORE_MONTH : list Z :=
  [-1; 0; 31; 59; 90; 120; 151; 181; 212; 243; 273; 304; 334].

(** [table[month]] for a month in 1..12. *)
Definition index (table : list Z) (i : Z) : Z := nth (Z.to_nat i) table 0.

Definition is_leap (year : Z) : bool :=
  (year mod 4 =? 0) && (negb (year mod 100 =? 0) || (year mod 400 =? 0)).

Definition days_before_year (year : Z) : Z :=
  let y := year - 1 in
  y * 365 + y / 4 - y / 100 + y / 400.

Definition days_in_month (year month : Z) : Z :=
  if (month =? 2) && is_leap year then 29 else index DAYS_IN_MONTH month.

Definition days_before_month (year month : Z) : Z :=
  index DAYS_BEFORE_MONTH month
  + (if (2 <? month) && is_leap year then 1 else 0).

Definition ymd2ord (year month day : Z) : Z :=
  days_before_year year + days_before_month year month + day.

Definition DI400Y : Z := 146097.
Definition DI100Y : Z := 36524.
Definition DI4Y : Z := 1461.

Record date : Type := Date { year : Z; month : Z; day : Z }.

(** The part of [_ord2ymd] after the 400-year cycle has been split off:
    [n] is the 0-based day number inside the cycle that starts in year
    [400 * n400 + 1]. *)
Definition ord2ymd_cycle (n400 n : Z) : date :=
  let year := n400 * 400 + 1 in
  let n100 := n / DI100Y in
  let n := n mod DI100Y in
  let n4 := n / DI4Y in
  let n := n mod DI4Y in
  let n1 := n / 365 in
  let n := n mod 365 in
  let year := year + (n100 * 100 + n4 * 4 + n1) in
  if (n1 =? 4) || (n100 =? 4) then Date (year - 1) 12 31
  else
    let leapyear := (n1 =? 3) && (negb (n4 =? 24) || (n100 =? 3)) in
    let month := Z.shiftr (n + 50) 5 in
    let preceding :=
      index DAYS_BEFORE_MONTH month
      + (if (2 <? month) && leapyear then 1 else 0) in
    if n <? preceding then
      let month := month - 1 in
      let preceding :=
        preceding
        - (index DAYS_IN_MONTH month
           + (if (month =? 2) && leapyear then 1 else 0)) in
      Date year month (n - preceding + 1)
    else Date year month (n - preceding + 1).

Definition ord2ymd (n : Z) : date :=
  let n := n - 1 in
  ord2ymd_cycle (n / DI400Y) (n mod DI400Y).

Definition INT_MAX : Z := 2147483647.
Definition INT_MIN : Z := -2147483648.
Definition LONG_MAX : Z := 9223372036854775807.
Definition LONG_MIN : Z := -9223372036854775808.

(** A Python integer given for an argument of the C type [int]. *)
Definition as_c_int (n : Z) : result Z :=
  if (n <? LONG_MIN) || (LONG_MAX <? n)
  then Raise (Exn OverflowError "Python int too large to convert to C long")
  else if INT_MAX <? n
  then Raise (Exn OverflowError "signed integer is greater than maximum")
  else if n <? INT_MIN
  then Raise (Exn OverflowError "signed integer is less than minimum")
  else Ok n.

(** [date(year, month, day)]: the three arguments are converted to C
    integers, then the constructor checks its fields. *)
Definition mk_date (y m d : Z) : result date :=
  y ← as_c_int y;
  m ← as_c_int m;
  d ← as_c_int d;
  if negb ((MINYEAR <=? y) && (y <=? MAXYEAR))
  then Raise (Exn ValueError ("year " ++ str_int y ++ " is out of range"))
  else if negb ((1 <=? m) && (m <=? 12))
  then Raise (Exn ValueError "month must be in 1..12")
  else if negb ((1 <=? d) && (d <=? days_in_month y m))
  then Raise (Exn ValueError "day is out of range for month")
  else Ok (Date y m d).

Definition toordinal (d : date) : Z := ymd2ord (year d) (month d) (day d).

(** [date.weekday()]: Monday is 0, Friday is 4, Sunday is 6. *)
Definition weekday (d : date) : Z := (toordinal d + 6) mod 7.

(** [timedelta(days=n)]: the number of days is bounded. *)
Definition timedelta (days : Z) : result Z :=
  if Z.abs days <=? 999999999 then Ok days
  else if (days <? INT_MIN) || (INT_MAX <? days)
  then Raise (Exn OverflowError "Python int too large to convert to C int")
  else Raise (Exn OverflowError
                ("days=" ++ str_int days
                 ++ "; must have magnitude <= 999999999")).

(** [date + timedelta]. *)
Definition date_add (d : date) (delta : Z) : result date :=
  let o := toordinal d + delta in
  if (0 <? o) && (o <=? MAXORDINAL) then Ok (ord2ymd o)
  else Raise (Exn OverflowError "date value out of range").

End Calendar.

(* ===================================================================== *)
(** ** The interface of the [spongecake] package used by the examples *)
(* ===================================================================== *)

Module Spongecake.
Import Py.

(** Modelled from the spec: the [AgentStatus] enumeration is declared in
    the spongecake package, which is not part of the examples.  The
    examples name [COMPLETE] and [ERROR]; the spec adds the two pending
    statuses; [OTHER] stands for any further member. *)
Inductive AgentStatus : Type :=
  | COMPLETE
  | ERROR
  | NEEDS_INPUT
  | NEEDS_SAFETY_CHECK
  | OTHER (member : string).

(** [str(status)] of an enumeration member. *)
Definition status_str (status : AgentStatus) : string :=
  "AgentStatus." ++
  match status with
  | COMPLETE => "COMPLETE"
  | ERROR => "ERROR"
  | NEEDS_INPUT => "NEEDS_INPUT"
  | NEEDS_SAFETY_CHECK => "NEEDS_SAFETY_CHECK"
  | OTHER member => member
  end.

(** The object returned next to the status.  The examples read it with
    [data.output_text], [hasattr(data, "output_text")] and
    [getattr(data, 'error_message', default)]: an attribute is either
    present with a string, or absent.  The class of the object is declared
    in the package; the text of the [AttributeError] for an absent
    attribute is kept without the name of that class. *)
Record response : Type := Response {
  output_text : option string;
  error_message : option string
}.

(** A [Desktop]: its container name and its four ports. *)
Record Desktop : Type := MkDesktop {
  name : string;
  vnc_port : Z;
  api_port : Z;
  marionette_port : Z;
  socat_port : Z
}.

(** The calls made on a desktop, as they are observed from outside. *)
Inductive event : Type :=
  | Start (d : Desktop)
  | Action (d : Desktop) (input_text : string)
  | Stop (d : Desktop).

(** A computation that calls into the package: it extends the trace of
    events and returns or raises. *)
Definition io (A : Type) : Type := list event -> list event * result A.

#[export] Instance io_ret : MRet io := fun A a tr => (tr, Ok a).

#[export] Instance io_bind : MBind io := fun A B k c tr =>
  match c tr with
  | (tr', Ok a) => k a tr'
  | (tr', Raise e) => (tr', Raise e)
  end.

(** An external call: the event is recorded, the outcome is the one the
    environment decides. *)
Definition call {A : Type} (ev : event) (outcome : result A) : io A :=
  fun tr => ((tr ++ [ev])%list, outcome).

(** A computation without external calls. *)
Definition lift {A : Type} (r : result A) : io A := fun tr => (tr, r).

(** [try: body  except Exception as e: handler(e)]: an exception that is
    no [Exception] goes through. *)
Definition try_except {A : Type} (body : io A) (handler : exn -> io A)
  : io A :=
  fun tr =>
    match body tr with
    | (tr', Ok a) => (tr', Ok a)
    | (tr', Raise e) =>
        if is_Exception e then handler e tr' else (tr', Raise e)
    end.

(** [try: body  finally: cleanup]: the cleanup runs on every way out of
    the body; an exception of the cleanup replaces the body's outcome. *)
Definition try_finally {A : Type} (body : io A) (cleanup : io unit)
  : io A :=
  fun tr =>
    let '(tr', r) := body tr in
    match cleanup tr' with
    | (tr'', Ok _) => (tr'', r)
    | (tr'', Raise e) => (tr'', Raise e)
    end.

Definition run {A : Type} (c : io A) : list event * result A := c [].

Definition is_stop (ev : event) : bool :=
  match ev with Stop _ => true | _ => false end.

(** How many times [stop] was called. *)
Definition count_stops (tr : list event) : nat :=
  length (List.filter is_stop tr).

End Spongecake.

(* ===================================================================== *)
(** ** [examples/concurrency_example.py] *)
(* ===================================================================== *)

Module Flights.
Import Py Calendar Spongecake.

Definition month_map : gmap string string :=
  list_to_map
    [("1", "January"); ("2", "February"); ("3", "March"); ("4", "April");
     ("5", "May"); ("6", "June"); ("7", "July"); ("8", "August");
     ("9", "September"); ("10", "October"); ("11", "November");
     ("12", "December")].

(** [d[key]] on a dictionary with string keys; the text of a [KeyError]
    is the [repr] of the key. *)
Definition getitem (d : gmap string string) (key : string) : result string :=
  match d !! key with
  | Some v => Ok v
  | None => Raise (Exn KeyError (repr key))
  end.

(** [get_nth_weekend_dates(year, month, n)]: the day numbers of the n-th
    Friday of the month and of the Sunday after it, or [(None, None)]. *)
Definition get_nth_weekend_dates (year month n : Z)
  : result (option Z * option Z) :=
  first_day ← mk_date year month 1;
  let offset_to_friday := (4 - weekday first_day) mod 7 in
  delta ← timedelta (offset_to_friday + 7 * (n - 1));
  nth_friday ← date_add first_day delta;
  two ← timedelta 2;
  nth_sunday ← date_add nth_friday two;
  if negb (Calendar.month nth_friday =? month)
     || negb (Calendar.month nth_sunday =? month)
  then Ok (None, None)
  else Ok (Some (day nth_friday), Some (day nth_sunday)).

(** The desktop of one weekend: every port is the default port plus
    [weekend_number - 1]. *)
Definition desktop_of (weekend_number : Z) : Desktop :=
  {| name := "spongecake_weekend_flight_" ++ str_int weekend_number;
     vnc_port := 5900 + weekend_number - 1;
     api_port := 8000 + weekend_number - 1;
     marionette_port := 3838 + weekend_number - 1;
     socat_port := 2828 + weekend_number - 1 |}.

(** The ports of a desktop, as a list. *)
Definition ports (d : Desktop) : list Z :=
  [vnc_port d; api_port d; marionette_port d; socat_port d].

(** What the package and the container do in one unit of work:
    [desktop.start()], [desktop.action(...)] with
    [ignore_safety_and_input=True], and [desktop.stop()]. *)
Record world : Type := World {
  start_result : result string;
  action_result : result (AgentStatus * response);
  stop_result : result unit
}.

(** The prompt of one weekend.  Only the interpolated values are kept,
    one per line and in the order of their first use; the instructions
    around them are the same for every weekend. *)
Definition prompt_text (origin destination month_name : string)
    (weekend_number friday_date sunday_date : Z) : string :=
  String.concat (String "010" "")
    [origin; destination; month_name; str_int weekend_number;
     str_int friday_date; str_int sunday_date].

Definition stop (w : world) (desktop : Desktop) : io unit :=
  call (Stop desktop) (stop_result w).

Definition check_flight_price (w : world)
    (month origin destination : string) (weekend_number : Z)
  : io (option string) :=
  let desktop := desktop_of weekend_number in
  container ← call (Start desktop) (start_result w);
  m ← lift (int month);
  dates ← lift (get_nth_weekend_dates 2025 m weekend_number);
  match dates with
  | (Some friday_date, Some sunday_date) =>
      try_finally
        (try_except
           (month_name ← lift (getitem month_map month);
            let prompt :=
              prompt_text origin destination month_name weekend_number
                          friday_date sunday_date in
            answer ← call (Action desktop prompt) (action_result w);
            let '(status, data) := answer in
            match status with
            | COMPLETE =>
                match output_text data with
                | Some text => mret (Some text)
                | None =>
                    lift (Raise (Exn AttributeError
                            "object has no attribute 'output_text'"))
                end
            | ERROR =>
                let error_msg :=
                  default "Unknown error" (error_message data) in
                mret (Some ("ERROR: " ++ error_msg))
            | _ => mret (Some ("UNKNOWN: Status " ++ status_str status))
            end)
           (fun e => mret (Some ("EXCEPTION: " ++ exn_str e))))
        (stop w desktop)
  | _ =>
      _ ← stop w desktop;
      mret None
  end.

Definition weekends : list Z := [1; 2; 3; 4; 5].

Definition max_workers : Z := Z.min 5 (Z.of_nat (length weekends)).

(** The two variables that the loop over the completed futures updates. *)
Record summary : Type := Summary {
  results : gmap Z string;
  cheapest_weekend : float
}.

(** The body of the loop over [as_completed]: [outcome] is what
    [future.result()] returns or raises.  An exception that is no
    [Exception] is not caught and leaves the loop. *)
Definition collect (st : summary) (weekend_number : Z)
    (outcome : result (option string)) : result summary :=
  match outcome with
  | Ok (Some result) =>
      let results' := <[weekend_number := result]> (results st) in
      match float_of_string result with
      | Some price =>
          if float_lt price (cheapest_weekend st)
          then Ok (Summary results' price)
          else Ok (Summary results' (cheapest_weekend st))
      | None => Ok (Summary results' (cheapest_weekend st))
      end
  | Ok None => Ok st
  | Raise e =>
      if is_Exception e then
        Ok (Summary (<[weekend_number := "ERROR: " ++ exn_str e]> (results st))
                    (cheapest_weekend st))
      else Raise e
  end.

(** The loop over [as_completed] from the state [st] on: the futures with
    their weekend numbers, in the order in which they complete. *)
Fixpoint collect_from (st : summary)
    (completed : list (Z * result (option string))) : result summary :=
  match completed with
  | [] => Ok st
  | c :: rest =>
      st' ← collect st (fst c) (snd c);
      collect_from st' rest
  end.

(** The whole loop, from the empty mapping and the price infinity. *)
Definition collect_all (completed : list (Z * result (option string)))
  : result summary :=
  collect_from (Summary ∅ inf) completed.

(** The future of one weekend: the outcome of its unit of work. *)
Definition future (worlds : Z -> world)
    (month origin destination : string) (weekend : Z)
  : result (option string) :=
  snd (run (check_flight_price (worlds weekend) month origin destination
                               weekend)).

(** [main()]: the three lines read from the terminal, the behaviour of
    the package in each unit of work, and the order in which the futures
    complete. *)
Definition main (line1 line2 line3 : string) (worlds : Z -> world)
    (completion : list Z) : result summary :=
  let origin := strip line1 in
  let destination := strip line2 in
  let month := strip line3 in
  _ ← getitem month_map month;
  collect_all
    (map (fun weekend =>
            (weekend, future worlds month origin destination weekend))
         completion).

End Flights.

(* ===================================================================== *)
(** ** The action state machine *)
(* ===================================================================== *)

Module Machine.
Import Py Spongecake.

(** What the machine hands to the engine: the task, an answer of the
    input handler, or the go-ahead for an operation that was held back. *)
Inductive instruction : Type :=
  | Task (input_text : string)
  | Answer (text : string)
  | Proceed (operation : string).

(** What the engine comes back with: a status and its payload. *)
Inductive reply : Type :=
  | AskInput (pendingMessages : list string)
  | AskSafetyCheck (pendingChecks : list (option string))
                   (pendingOperation : string)
  | Finished (output : response)
  | Failed (message : string)
  | Unrecognized (rawStatus : string).

(** The engine is a collaborator: it answers to what it was told so far. *)
Definition engine : Type := list instruction -> reply.

Inductive state : Type :=
  | RUNNING
  | NEEDS_INPUT (pendingMessages : list string)
  | NEEDS_SAFETY_CHECK (pendingChecks : list (option string))
                       (pendingOperation : string)
  | COMPLETE (output : response)
  | ERROR (message : string)
  | UNKNOWN (rawStatus : string)
  | CANCELLED.

Definition terminal (s : state) : bool :=
  match s with
  | COMPLETE _ | ERROR _ | UNKNOWN _ | CANCELLED => true
  | _ => false
  end.

Section Drive.

(** The state of the caller, which the handlers read and update. *)
Context {W : Type}.

Record handlers : Type := Handlers {
  onInput : list string -> W -> W * option string;
  onSafetyCheck : list (option string) -> string -> W -> W * bool;
  onComplete : response -> W -> W;
  onError : string -> W -> W
}.

(** One run: its state, what the engine was told, the held-back
    operations that were executed, and the state of the caller. *)
Record run : Type := Run {
  st : state;
  told : list instruction;
  executed : list string;
  caller : W
}.

Definition start (input_text : string) (w : W) : run :=
  Run RUNNING [Task input_text] [] w.

(** Modelled from the spec: the Action State Machine behind
    [Desktop.action], which is part of the spongecake package and not of
    the examples.  From [RUNNING] the engine's status decides the next
    state, the complete and error handlers being told of a terminal
    [COMPLETE] or [ERROR]; from [NEEDS_INPUT] the input handler supplies
    the next instruction or aborts; from [NEEDS_SAFETY_CHECK] the
    safety-check handler returns true, which executes the pending
    operation and resumes, or false, which cancels the run without
    executing it; a terminal state stays. *)
Definition step (e : engine) (h : handlers) (r : run) : run :=
  match st r with
  | RUNNING =>
      match e (told r) with
      | AskInput msgs => Run (NEEDS_INPUT msgs) (told r) (executed r) (caller r)
      | AskSafetyCheck checks op =>
          Run (NEEDS_SAFETY_CHECK checks op) (told r) (executed r) (caller r)
      | Finished out =>
          Run (COMPLETE out) (told r) (executed r) (onComplete h out (caller r))
      | Failed msg =>
          Run (ERROR msg) (told r) (executed r) (onError h msg (caller r))
      | Unrecognized raw => Run (UNKNOWN raw) (told r) (executed r) (caller r)
      end
  | NEEDS_INPUT msgs =>
      match onInput h msgs (caller r) with
      | (w, Some text) =>
          Run RUNNING (told r ++ [Answer text])%list (executed r) w
      | (w, None) => Run CANCELLED (told r) (executed r) w
      end
  | NEEDS_SAFETY_CHECK checks op =>
      match onSafetyCheck h checks op (caller r) with
      | (w, true) =>
          Run RUNNING (told r ++ [Proceed op])%list
              (executed r ++ [op])%list w
      | (w, false) => Run CANCELLED (told r) (executed r) w
      end
  | COMPLETE _ | ERROR _ | UNKNOWN _ | CANCELLED => r
  end.

(** [n] steps of a run. *)
Fixpoint steps (e : engine) (h : handlers) (n : nat) (r : run) : run :=
  match n with
  | O => r
  | S n' => steps e h n' (step e h r)
  end.

(** The whole action: the run when it has reached a terminal state within
    [fuel] steps. *)
Definition action (e : engine) (h : handlers) (fuel : nat)
    (input_text : string) (w : W) : option run :=
  let r := steps e h fuel (start input_text w) in
  if terminal (st r) then Some r else None.

End Drive.

Arguments handlers : clear implicits.
Arguments run : clear implicits.

End Machine.

(* ===================================================================== *)
(** ** [examples/linkedin_example.py] *)
(* ===================================================================== *)

Module LinkedIn.
Import Py Spongecake.

(** The terminal of the operator: the lines that [input()] will return,
    and how many were read. *)
Record console : Type := Console {
  typed : nat -> string;
  cursor : nat
}.

(** The module-level state: the terminal and the one-slot list
    [result]. *)
Record globals : Type := Globals {
  terminal : console;
  result0 : option response
}.

(** [input(...)]. *)
Definition input (g : globals) : string * globals :=
  let c := terminal g in
  (typed c (cursor c),
   Globals (Console (typed c) (S (cursor c))) (result0 g)).

Definition set_result (v : option response) (g : globals) : globals :=
  Globals (terminal g) v.

Definition complete_handler (data : response) (g : globals) : globals :=
  set_result (Some data) g.

Definition needs_input_handler (messages : list string) (g : globals)
  : globals * option string :=
  let '(line, g) := input g in
  let user_says := strip line in
  if bool_decide (lower user_says ∈ ["exit"; "quit"])
  then (set_result None g, None)
  else (g, Some user_says).

Definition needs_safety_check_handler (safety_checks : list (option string))
    (pending_call : string) (g : globals) : globals * bool :=
  let '(line, g) := input g in
  let ack := lower (strip line) in
  if bool_decide (ack ∈ ["exit"; "quit"])
  then (set_result None g, false)
  else if bool_decide (ack = "ack")
  then (g, true)
  else (g, false).

Definition error_handler (error_message : string) (g : globals) : globals :=
  set_result None g.

Definition the_handlers : Machine.handlers globals :=
  {| Machine.onInput := needs_input_handler;
     Machine.onSafetyCheck := needs_safety_check_handler;
     Machine.onComplete := complete_handler;
     Machine.onError := error_handler |}.

(** The instructions to the agent; the text is a constant. *)
Definition user_prompt : string := "# AGENT INSTRUCTIONS # ...".

Definition auto_mode : bool := false.

(** The last message that [main] prints. *)
Inductive report : Type :=
  | Interrupted
  | ResultText (output_text : string)
  | Done
  | ErrorOccurred (e : exn).

(** [main()].  [start_result] is the outcome of [desktop.start()]; in
    auto mode [auto_result] is what [desktop.action] returns, otherwise
    the action is the state machine run against the engine [e].  The
    attempt to open a viewer catches its own exceptions and changes
    nothing else.  [None] is returned when the action has not come back
    after [fuel] steps. *)
Definition main (start_result : result string)
    (auto_result : result (AgentStatus * response))
    (e : Machine.engine) (fuel : nat) (g : globals)
  : io (option report) :=
  let desktop := MkDesktop "newdesktop" 5900 8000 3838 2828 in
  container ← call (Start desktop) (start_result);
  try_except
    (after ←
       (if auto_mode then
          answer ← call (Action desktop user_prompt) auto_result;
          let '(status, data) := answer in
          mret (Some (set_result (Some data) g))
        else
          call (Action desktop user_prompt)
               (Ok (Machine.caller <$>
                      Machine.action e the_handlers fuel user_prompt g)));
     match after with
     | None => mret None
     | Some g' =>
         let final_result := result0 g' in
         match final_result with
         | None => mret (Some Interrupted)
         | Some data =>
             match output_text data with
             | Some text => mret (Some (ResultText text))
             | None => mret (Some Done)
             end
         end
     end)
    (fun e => mret (Some (ErrorOccurred e))).

End LinkedIn.

(* ===================================================================== *)
(** ** Vocabulary of the statements *)
(* ===================================================================== *)

Module Props.
Import Py Calendar Spongecake Flights.

(** The month and the day of the 0-based day [n] of a year, in the way
    [ord2ymd] finds them. *)
Definition month_day (leapyear : bool) (n : Z) : Z * Z :=
  let month := Z.shiftr (n + 50) 5 in
  let preceding :=
    index DAYS_BEFORE_MONTH month
    + (if (2 <? month) && leapyear then 1 else 0) in
  if n <? preceding then
    let month := month - 1 in
    let preceding :=
      preceding
      - (index DAYS_IN_MONTH month
         + (if (month =? 2) && leapyear then 1 else 0)) in
    (month, n - preceding + 1)
  else (month, n - preceding + 1).

Definition dim_of (leapyear : bool) (month : Z) : Z :=
  if (month =? 2) && leapyear then 29 else index DAYS_IN_MONTH month.

Definition dbm_of (leapyear : bool) (month : Z) : Z :=
  index DAYS_BEFORE_MONTH month
  + (if (2 <? month) && leapyear then 1 else 0).

Definition month_day_ok (leapyear : bool) (n : Z) : bool :=
  let '(m, d) := month_day leapyear n in
  (1 <=? m) && (m <=? 12) && (1 <=? d) && (d <=? dim_of leapyear m)
  && (dbm_of leapyear m + d =? n + 1).

(** [p] holds for the [k] integers from [n] on. *)
Fixpoint all_from (p : Z -> bool) (k : nat) (n : Z) : bool :=
  match k with
  | O => true
  | S k' => p n && all_from p k' (n + 1)
  end.

Definition valid_date (d : date) : Prop :=
  1 <= month d <= 12 /\ 1 <= day d <= days_in_month (year d) (month d).


(** The day number of the first Friday of a month: the first of the days
    1 to 7 that is a Friday. *)
Definition first_friday (y m : Z) : Z :=
  default 0 (List.find (fun d => weekday (Date y m d) =? 4) [1; 2; 3; 4; 5; 6; 7]).

(** The day number of the n-th Friday, counted from the first of the
    month on, also past the end of the month. *)
Definition nth_friday (y m n : Z) : Z := first_friday y m + 7 * (n - 1).

(** What the loop over the completed futures stores for one future: the
    returned text, nothing for [None], and the text of the exception for
    a future that has raised an [Exception]; the loop ends at any other
    exception. *)
Definition entry (outcome : result (option string)) : option string :=
  match outcome with
  | Ok o => o
  | Raise e => if is_Exception e then Some ("ERROR: " ++ exn_str e) else None
  end.

(** The future has not raised an exception that the loop does not
    catch. *)
Definition caught (outcome : result (option string)) : Prop :=
  forall e, outcome = Raise e -> is_Exception e = true.

(** Among the completed futures, one returned a text that [float] reads
    as the number [v]. *)
Definition priced (completed : list (Z * result (option string)))
    (v : float) : Prop :=
  exists w text,
    In (w, Ok (Some text)) completed
    /\ float_of_string text = Some v /\ v <> NaN.

(** The outcomes 1: 231, 2: ERROR: timeout, 3: 189. *)
Definition three_outcomes : list (Z * result (option string)) :=
  [(1, Ok (Some "231")); (2, Ok (Some "ERROR: timeout"));
   (3, Ok (Some "189"))].

(** A unit of work in which every call succeeds and the agent answers
    [text]. *)
Definition world_complete (text : string) : world :=
  World (Ok "container") (Ok (COMPLETE, Response (Some text) None)) (Ok tt).

(** A unit of work whose action comes back with [status]. *)
Definition world_status (status : AgentStatus) : world :=
  World (Ok "container") (Ok (status, Response None None)) (Ok tt).

(** A unit of work whose action raises. *)
Definition world_fault (detail : string) : world :=
  World (Ok "container") (Raise (Exn RuntimeError detail)) (Ok tt).

(** A unit of work whose action raises [SystemExit], which is no
    [Exception]. *)
Definition world_exit (detail : string) : world :=
  World (Ok "container") (Raise (Exn SystemExit detail)) (Ok tt).

(** An operator who types the given lines, then empty lines. *)
Definition operator (lines : list string) : LinkedIn.globals :=
  LinkedIn.Globals (LinkedIn.Console (fun i => nth i lines "") 0) None.

(** An engine that finishes at once with the output [text]. *)
Definition engine_finished (text : string) : Machine.engine :=
  fun _ => Machine.Finished (Response (Some text) None).

(** An engine that holds back the operation [op] and finishes once it was
    told to proceed. *)
Definition engine_guarded (op text : string) : Machine.engine :=
  fun told =>
    match told with
    | [_] => Machine.AskSafetyCheck [Some "check"] op
    | _ => Machine.Finished (Response (Some text) None)
    end.

(** The stored result follows the state of the run: it is the output
    once the run is complete, and nothing before and otherwise. *)
Definition result_follows_state (r : Machine.run LinkedIn.globals) : Prop :=
  LinkedIn.result0 (Machine.caller r)
  = match Machine.st r with
    | Machine.COMPLETE output => Some output
    | _ => None
    end.

End Props.

(* ===================================================================== *)
(** ** The calendar *)
(* ===================================================================== *)

Import Py Calendar Spongecake Flights Props.

Lemma all_from_spec p k : forall n,
  all_from p k n = true -> forall i, n <= i < n + Z.of_nat k -> p i = true.
Proof.
  induction k as [|k IH]; simpl; intros n H i Hi; [lia|].
  apply andb_true_iff in H as [H1 H2].
  destruct (Z.eq_dec i n) as [->|Hne]; [exact H1|].
  apply (IH (n + 1)); [exact H2|lia].
Qed.

Lemma month_day_checked :
  all_from (month_day_ok false) 365 0 && all_from (month_day_ok true) 366 0
  = true.
Proof. vm_compute. reflexivity. Qed.

Lemma month_day_sound (leapyear : bool) (n : Z) :
  0 <= n < 365 + (if leapyear then 1 else 0) ->
  month_day_ok leapyear n = true.
Proof.
  intros Hn. pose proof month_day_checked as H.
  apply andb_true_iff in H as [H0 H1].
  destruct leapyear.
  - apply (all_from_spec _ _ _ H1). lia.
  - apply (all_from_spec _ _ _ H0). lia.
Qed.

Lemma days_before_year_split (a b c d : Z) :
  0 <= b <= 3 -> 0 <= c <= 24 -> 0 <= d <= 3 ->
  days_before_year (a * 400 + 1 + (b * 100 + c * 4 + d))
  = a * DI400Y + b * DI100Y + c * DI4Y + d * 365.
Proof.
  intros Hb Hc Hd. unfold days_before_year, DI400Y, DI100Y, DI4Y.
  Z.div_mod_to_equations. lia.
Qed.

Lemma is_leap_split (a b c d : Z) :
  0 <= b <= 3 -> 0 <= c <= 24 -> 0 <= d <= 3 ->
  is_leap (a * 400 + 1 + (b * 100 + c * 4 + d))
  = (d =? 3) && (negb (c =? 24) || (b =? 3)).
Proof.
  intros Hb Hc Hd. unfold is_leap.
  destruct (Z.eqb_spec d 3), (Z.eqb_spec c 24), (Z.eqb_spec b 3); simpl;
    repeat match goal with
    | |- context [?x =? ?y] => destruct (Z.eqb_spec x y)
    end; simpl; try reflexivity; exfalso;
    Z.div_mod_to_equations; lia.
Qed.

Lemma ord2ymd_cycle_month_day (n400 n : Z) :
  ord2ymd_cycle n400 n =
  let n100 := n / DI100Y in
  let n4 := n mod DI100Y / DI4Y in
  let n1 := n mod DI100Y mod DI4Y / 365 in
  let y := n400 * 400 + 1 + (n100 * 100 + n4 * 4 + n1) in
  if (n1 =? 4) || (n100 =? 4) then Date (y - 1) 12 31
  else
    let md :=
      month_day ((n1 =? 3) && (negb (n4 =? 24) || (n100 =? 3)))
                (n mod DI100Y mod DI4Y mod 365) in
    Date y (fst md) (snd md).
Proof.
  unfold ord2ymd_cycle, month_day. cbv zeta.
  destruct (_ || _); [reflexivity|].
  destruct (_ <? _); reflexivity.
Qed.

Lemma ord2ymd_sound (o : Z) :
  1 <= o -> valid_date (ord2ymd o) /\ toordinal (ord2ymd o) = o.
Proof.
  intros Ho. unfold ord2ymd. cbv zeta. rewrite ord2ymd_cycle_month_day.
  cbv zeta.
  pose proof (Z.div_mod (o - 1) DI400Y ltac:(discriminate)) as E0.
  pose proof (Z.mod_pos_bound (o - 1) DI400Y eq_refl) as B0.
  set (a := (o - 1) / DI400Y) in *. set (r := (o - 1) mod DI400Y) in *.
  pose proof (Z.div_mod r DI100Y ltac:(discriminate)) as E1.
  pose proof (Z.mod_pos_bound r DI100Y eq_refl) as B1.
  set (b := r / DI100Y) in *. set (r1 := r mod DI100Y) in *.
  pose proof (Z.div_mod r1 DI4Y ltac:(discriminate)) as E2.
  pose proof (Z.mod_pos_bound r1 DI4Y eq_refl) as B2.
  set (c := r1 / DI4Y) in *. set (r2 := r1 mod DI4Y) in *.
  pose proof (Z.div_mod r2 365 ltac:(discriminate)) as E3.
  pose proof (Z.mod_pos_bound r2 365 eq_refl) as B3.
  set (d := r2 / 365) in *. set (r3 := r2 mod 365) in *.
  unfold DI400Y, DI100Y, DI4Y in E0, B0, E1, B1, E2, B2.
  assert (Hb : 0 <= b <= 4) by lia.
  assert (Hc : 0 <= c <= 24) by lia.
  assert (Hd : 0 <= d <= 4) by lia.
  destruct (Z.eqb_spec d 4) as [Ed|Ed]; simpl orb.
  - (* the last day of a leap year, reached with [n1 = 4] *)
    assert (Hc' : c <= 23 \/ b = 4) by lia.
    replace (a * 400 + 1 + (b * 100 + c * 4 + d) - 1)
      with (a * 400 + 1 + (b * 100 + c * 4 + 3)) by lia.
    destruct (Z.eq_dec b 4) as [Eb|Eb]; [lia|].
    unfold valid_date, toordinal, ymd2ord, days_in_month, days_before_month.
    simpl year; simpl month; simpl day.
    rewrite days_before_year_split, is_leap_split by lia.
    replace (3 =? 3) with true by reflexivity.
    destruct (Z.eqb_spec c 24); [lia|].
    unfold DI400Y, DI100Y, DI4Y, index. simpl. lia.
  - destruct (Z.eqb_spec b 4) as [Eb|Eb].
    + (* the last day of a 400-year cycle *)
      assert (r1 = 0) by lia. assert (c = 0) by lia.
      assert (d = 0) by lia.
      replace (a * 400 + 1 + (b * 100 + c * 4 + d) - 1)
        with (a * 400 + 1 + (3 * 100 + 24 * 4 + 3)) by lia.
      unfold valid_date, toordinal, ymd2ord, days_in_month, days_before_month.
      simpl year; simpl month; simpl day.
      rewrite days_before_year_split, is_leap_split by lia.
      unfold DI400Y, DI100Y, DI4Y, index. simpl. lia.
    + set (leap := (d =? 3) && (negb (c =? 24) || (b =? 3))).
      pose proof (month_day_sound leap r3) as Hmd.
      unfold month_day_ok in Hmd.
      destruct (month_day leap r3) as [m dd].
      assert (Hr3 : 0 <= r3 < 365 + (if leap then 1 else 0))
        by (destruct leap; lia).
      specialize (Hmd Hr3).
      repeat (apply andb_true_iff in Hmd as [Hmd ?]).
      unfold valid_date, toordinal, ymd2ord, days_in_month, days_before_month.
      simpl year; simpl month; simpl day.
      rewrite days_before_year_split, is_leap_split by lia.
      fold leap. unfold dim_of, dbm_of in *.
      unfold DI400Y, DI100Y, DI4Y. lia.
Qed.

Lemma year_length (y : Z) :
  days_before_year (y + 1)
  = days_before_year y + 365 + (if is_leap y then 1 else 0).
Proof.
  unfold days_before_year, is_leap.
  repeat match goal with
  | |- context [?x =? ?y] => destruct (Z.eqb_spec x y)
  end; simpl; Z.div_mod_to_equations; lia.
Qed.

Lemma days_before_year_mono (y y' : Z) :
  y <= y' -> days_before_year y <= days_before_year y'.
Proof.
  intros H. unfold days_before_year. Z.div_mod_to_equations. lia.
Qed.

Ltac months m H :=
  assert (m = 1 \/ m = 2 \/ m = 3 \/ m = 4 \/ m = 5 \/ m = 6 \/ m = 7
          \/ m = 8 \/ m = 9 \/ m = 10 \/ m = 11 \/ m = 12) as H by lia;
  repeat destruct H as [H|H]; subst m.

Lemma day_of_year_bounds (y m d : Z) :
  1 <= m <= 12 -> 1 <= d <= days_in_month y m ->
  1 <= days_before_month y m + d <= 365 + (if is_leap y then 1 else 0).
Proof.
  intros Hm. unfold days_in_month, days_before_month, index.
  months m H; destruct (is_leap y); simpl; lia.
Qed.

Lemma day_of_year_inj (y m d m' d' : Z) :
  1 <= m <= 12 -> 1 <= d <= days_in_month y m ->
  1 <= m' <= 12 -> 1 <= d' <= days_in_month y m' ->
  days_before_month y m + d = days_before_month y m' + d' ->
  m = m' /\ d = d'.
Proof.
  intros Hm Hd Hm' Hd'. revert Hd Hd'.
  unfold days_in_month, days_before_month, index.
  months m H; months m' H'; destruct (is_leap y); simpl; lia.
Qed.

Lemma ymd2ord_bounds (y m d : Z) :
  1 <= m <= 12 -> 1 <= d <= days_in_month y m ->
  days_before_year y < ymd2ord y m d <= days_before_year (y + 1).
Proof.
  intros Hm Hd. pose proof (day_of_year_bounds y m d Hm Hd).
  rewrite year_length. unfold ymd2ord. lia.
Qed.

Lemma ymd2ord_inj (y m d y' m' d' : Z) :
  1 <= m <= 12 -> 1 <= d <= days_in_month y m ->
  1 <= m' <= 12 -> 1 <= d' <= days_in_month y' m' ->
  ymd2ord y m d = ymd2ord y' m' d' ->
  y = y' /\ m = m' /\ d = d'.
Proof.
  intros Hm Hd Hm' Hd' E.
  pose proof (ymd2ord_bounds y m d Hm Hd).
  pose proof (ymd2ord_bounds y' m' d' Hm' Hd').
  assert (y = y') as <-.
  { destruct (Z.lt_trichotomy y y') as [L|[L|L]]; [|exact L|].
    - pose proof (days_before_year_mono (y + 1) y'). lia.
    - pose proof (days_before_year_mono (y' + 1) y). lia. }
  split; [reflexivity|].
  apply (day_of_year_inj y); try assumption. unfold ymd2ord in E. lia.
Qed.

(** A day of the month, reached from the first of the month. *)
Lemma ord2ymd_in_month (y m k : Z) :
  1 <= y -> 1 <= m <= 12 -> 0 <= k < days_in_month y m ->
  ord2ymd (ymd2ord y m 1 + k) = Date y m (1 + k).
Proof.
  intros Hy Hm Hk.
  assert (E : ymd2ord y m 1 + k = ymd2ord y m (1 + k))
    by (unfold ymd2ord; lia).
  pose proof (ymd2ord_bounds y m (1 + k) Hm ltac:(lia)) as B.
  pose proof (days_before_year_mono 1 y Hy) as B1.
  change (days_before_year 1) with 0 in B1.
  destruct (ord2ymd_sound (ymd2ord y m 1 + k) ltac:(lia)) as [[V1 V2] V3].
  destruct (ord2ymd (ymd2ord y m 1 + k)) as [y' m' d'].
  unfold toordinal in V3. simpl in *. rewrite E in V3.
  apply ymd2ord_inj in V3 as (-> & -> & ->); try assumption; [reflexivity|lia].
Qed.

(** Past the end of the month, and for less than a year, the month is
    another one. *)
Lemma ord2ymd_past_month (y m k : Z) :
  1 <= y -> 1 <= m <= 12 -> days_in_month y m <= k <= 364 ->
  month (ord2ymd (ymd2ord y m 1 + k)) <> m.
Proof.
  intros Hy Hm Hk.
  pose proof (ymd2ord_bounds y m 1 Hm) as B.
  assert (Hdim : 28 <= days_in_month y m).
  { unfold days_in_month, index. months m H; destruct (is_leap y); simpl; lia. }
  specialize (B ltac:(lia)).
  pose proof (days_before_year_mono 1 y Hy) as B1.
  change (days_before_year 1) with 0 in B1.
  destruct (ord2ymd_sound (ymd2ord y m 1 + k) ltac:(lia)) as [[V1 V2] V3].
  destruct (ord2ymd (ymd2ord y m 1 + k)) as [y' m' d'].
  unfold toordinal in V3. simpl in *. intros ->.
  pose proof (year_length y) as YL. pose proof (year_length y') as YL'.
  assert (D : days_before_month y' m - days_before_month y m >= -1
              /\ days_before_month y' m - days_before_month y m <= 1).
  { unfold days_before_month. destruct (_ && is_leap y'), (_ && is_leap y); lia. }
  assert (D0 : 0 <= days_before_month y m /\ 0 <= days_before_month y' m).
  { unfold days_before_month, index.
    months m H; destruct (is_leap y), (is_leap y'); simpl; lia. }
  unfold ymd2ord in V3, B.
  destruct (Z.lt_trichotomy y y') as [L|[L|L]].
  - pose proof (days_before_year_mono (y + 1) y' ltac:(lia)).
    assert (days_before_month y' m - days_before_month y m
            >= - (if is_leap y then 1 else 0)).
    { unfold days_before_month.
      destruct (2 <? m), (is_leap y'), (is_leap y); simpl; lia. }
    lia.
  - subst y'. lia.
  - pose proof (days_before_year_mono (y' + 1) y ltac:(lia)).
    pose proof (day_of_year_bounds y' m d' Hm V2). lia.
Qed.

Lemma first_friday_offset (y m : Z) :
  first_friday y m = 1 + (4 - weekday (Date y m 1)) mod 7.
Proof.
  unfold first_friday, weekday, toordinal, ymd2ord. simpl.
  set (X := days_before_year y + days_before_month y m).
  pose proof (Z.mod_pos_bound X 7 eq_refl) as B.
  assert (E : forall c, (X + c + 6) mod 7 = (X mod 7 + (c + 6)) mod 7).
  { intros c. rewrite Zplus_mod_idemp_l. f_equal. lia. }
  rewrite !E.
  assert (H : X mod 7 = 0 \/ X mod 7 = 1 \/ X mod 7 = 2 \/ X mod 7 = 3
              \/ X mod 7 = 4 \/ X mod 7 = 5 \/ X mod 7 = 6) by lia.
  repeat destruct H as [H|H]; rewrite H; reflexivity.
Qed.

Lemma bind_ok {A B : Type} (a : A) (k : A -> result B) :
  (Ok a ≫= k) = k a.
Proof. reflexivity. Qed.

Lemma as_c_int_ok (n : Z) :
  INT_MIN <= n <= INT_MAX -> as_c_int n = Ok n.
Proof.
  unfold as_c_int, INT_MIN, INT_MAX, LONG_MIN, LONG_MAX. intros H.
  replace ((n <? -9223372036854775808) || (9223372036854775807 <? n))
    with false by lia.
  replace (2147483647 <? n) with false by lia.
  replace (n <? -2147483648) with false by lia.
  reflexivity.
Qed.

Lemma mk_date_first (y m : Z) :
  1 <= y <= 9999 -> 1 <= m <= 12 -> mk_date y m 1 = Ok (Date y m 1).
Proof.
  intros Hy Hm. unfold mk_date, MINYEAR, MAXYEAR.
  rewrite !as_c_int_ok, !bind_ok by (unfold INT_MIN, INT_MAX; lia).
  assert (Hdim : 28 <= days_in_month y m).
  { unfold days_in_month, index. months m H; destruct (is_leap y); simpl; lia. }
  replace ((1 <=? y) && (y <=? 9999)) with true by lia.
  replace ((1 <=? m) && (m <=? 12)) with true by lia.
  replace ((1 <=? 1) && (1 <=? days_in_month y m)) with true by lia.
  reflexivity.
Qed.

Lemma timedelta_ok (days : Z) :
  Z.abs days <= 999999999 -> timedelta days = Ok days.
Proof.
  intros H. unfold timedelta.
  destruct (Z.leb_spec (Z.abs days) 999999999); [reflexivity|lia].
Qed.

Lemma date_add_ok (d : date) (delta : Z) :
  0 < toordinal d + delta <= MAXORDINAL ->
  date_add d delta = Ok (ord2ymd (toordinal d + delta)).
Proof.
  intros H. unfold date_add.
  destruct (Z.ltb_spec 0 (toordinal d + delta)); [|lia].
  destruct (Z.leb_spec (toordinal d + delta) MAXORDINAL); [reflexivity|lia].
Qed.

Lemma weekend_dates (y m n : Z) :
  1 <= y <= 9999 -> 1 <= m <= 12 -> 1 <= n <= 52 ->
  ymd2ord y m (nth_friday y m n + 2) <= MAXORDINAL ->
  get_nth_weekend_dates y m n
  = Ok (if (nth_friday y m n <=? days_in_month y m)
           && (nth_friday y m n + 2 <=? days_in_month y m)
        then (Some (nth_friday y m n), Some (nth_friday y m n + 2))
        else (None, None)).
Proof.
  intros Hy Hm Hn Hmax. unfold nth_friday in *.
  rewrite first_friday_offset in *.
  assert (Hdim : 28 <= days_in_month y m <= 31).
  { unfold days_in_month, index. months m H; destruct (is_leap y); simpl; lia. }
  unfold get_nth_weekend_dates.
  rewrite mk_date_first, bind_ok by assumption.
  set (off := (4 - weekday (Date y m 1)) mod 7) in *.
  pose proof (Z.mod_pos_bound (4 - weekday (Date y m 1)) 7 eq_refl) as Hoff.
  fold off in Hoff.
  set (k := off + 7 * (n - 1)) in *.
  replace (1 + off + 7 * (n - 1)) with (1 + k) in * by (unfold k; lia).
  pose proof (ymd2ord_bounds y m 1 Hm ltac:(lia)) as B.
  pose proof (days_before_year_mono 1 y ltac:(lia)) as B1.
  change (days_before_year 1) with 0 in B1.
  assert (Hmax' : ymd2ord y m 1 + k + 2 <= MAXORDINAL)
    by (unfold ymd2ord in *; lia).
  rewrite (timedelta_ok k), bind_ok by lia.
  rewrite date_add_ok, bind_ok by (unfold toordinal; simpl; lia).
  rewrite (timedelta_ok 2), bind_ok by (simpl; lia).
  change (toordinal (Date y m 1)) with (ymd2ord y m 1).
  destruct (ord2ymd_sound (ymd2ord y m 1 + k) ltac:(lia)) as [_ Hord].
  rewrite date_add_ok, bind_ok by (rewrite Hord; lia).
  rewrite Hord.
  destruct (Z.lt_ge_cases k (days_in_month y m)) as [Lk|Lk].
  - rewrite (ord2ymd_in_month y m k) by lia. simpl month. simpl day.
    rewrite Z.eqb_refl. simpl negb. simpl orb.
    replace (ymd2ord y m 1 + k + 2) with (ymd2ord y m 1 + (k + 2)) by lia.
    destruct (Z.lt_ge_cases (k + 2) (days_in_month y m)) as [Ls|Ls].
    + rewrite (ord2ymd_in_month y m (k + 2)) by lia. simpl month. simpl day.
      rewrite Z.eqb_refl. simpl negb. cbv iota.
      replace ((1 + k <=? days_in_month y m)
               && (1 + k + 2 <=? days_in_month y m)) with true by lia.
      do 3 f_equal; lia.
    + pose proof (ord2ymd_past_month y m (k + 2) ltac:(lia) Hm ltac:(lia)) as P.
      apply Z.eqb_neq in P. rewrite P. simpl negb. cbv iota.
      replace ((1 + k <=? days_in_month y m)
               && (1 + k + 2 <=? days_in_month y m)) with false by lia.
      reflexivity.
  - pose proof (ord2ymd_past_month y m k ltac:(lia) Hm ltac:(lia)) as P.
    apply Z.eqb_neq in P. rewrite P. simpl negb. simpl orb. cbv iota.
    replace ((1 + k <=? days_in_month y m)
             && (1 + k + 2 <=? days_in_month y m)) with false by lia.
    reflexivity.
Qed.

(** The n-th Friday is a Friday, and the only one of its week of the
    month. *)
Lemma nth_friday_is_friday (y m n : Z) :
  7 * (n - 1) < nth_friday y m n <= 7 * n
  /\ (ymd2ord y m (nth_friday y m n) + 6) mod 7 = 4.
Proof.
  unfold nth_friday. rewrite first_friday_offset.
  unfold weekday, toordinal, ymd2ord. simpl.
  set (X := days_before_year y + days_before_month y m).
  split; Z.div_mod_to_equations; lia.
Qed.

(** C10, as the code has it.  For a year from 1 to 9999, a month from 1
    to 12 and [n] from 1 to 52, when the Sunday after the n-th Friday is
    not later than the last date, 9999-12-31: the result is
    [(None, None)] exactly when the n-th Friday of the month, or the Sunday
    two days after it, is past the end of the month; otherwise it is
    [(f, f + 2)], [f] being the day of the n-th Friday. *)
Theorem weekend_dates_of_the_month (y m n : Z) :
  1 <= y <= 9999 -> 1 <= m <= 12 -> 1 <= n <= 52 ->
  ymd2ord y m (nth_friday y m n + 2) <= MAXORDINAL ->
  let f := nth_friday y m n in
  (7 * (n - 1) < f <= 7 * n /\ (ymd2ord y m f + 6) mod 7 = 4)
  /\ get_nth_weekend_dates y m n
     = Ok (if (f <=? days_in_month y m) && (f + 2 <=? days_in_month y m)
           then (Some f, Some (f + 2))
           else (None, None)).
Proof.
  intros Hy Hm Hn Hmax f. split.
  - apply nth_friday_is_friday.
  - apply weekend_dates; assumption.
Qed.

Lemma weekend_dates_of_the_month_witness :
  1 <= 2025 <= 9999 /\ 1 <= 4 <= 12 /\ 1 <= 2 <= 52
  /\ ymd2ord 2025 4 (nth_friday 2025 4 2 + 2) <= MAXORDINAL
  /\ get_nth_weekend_dates 2025 4 2
     = Ok (if (nth_friday 2025 4 2 <=? days_in_month 2025 4)
              && (nth_friday 2025 4 2 + 2 <=? days_in_month 2025 4)
           then (Some (nth_friday 2025 4 2), Some (nth_friday 2025 4 2 + 2))
           else (None, None)).
Proof.
  assert (H1 : 1 <= 2025 <= 9999) by lia.
  assert (H2 : 1 <= 4 <= 12) by lia.
  assert (H3 : 1 <= 2 <= 52) by lia.
  assert (H4 : ymd2ord 2025 4 (nth_friday 2025 4 2 + 2) <= MAXORDINAL)
    by (vm_compute; discriminate).
  refine (conj H1 (conj H2 (conj H3 (conj H4 _)))).
  exact (proj2 (weekend_dates_of_the_month 2025 4 2 H1 H2 H3 H4)).
Defined.

(** The example of the docstring: the second Friday of April 2025 is the
    11th. *)
Example second_weekend_of_april_2025 :
  get_nth_weekend_dates 2025 4 2 = Ok (Some 11, Some 13).
Proof. vm_compute. reflexivity. Qed.

(** C10, as the spec has it, fails at the end of the calendar: the fifth
    Friday of December 9999 is the 31st, the Sunday after it is no date,
    and the function raises instead of returning [(None, None)].  It
    fails too, by the comparison of the months without the years, from
    the 53rd week on: the 53rd Friday counted from January 2025 is the day
    367, far outside the month, and the result is the weekend of
    January 2026. *)
Lemma weekend_dates_out_of_range :
  nth_friday 9999 12 5 = 31 /\ days_in_month 9999 12 = 31
  /\ get_nth_weekend_dates 9999 12 5
     = Raise (Exn OverflowError "date value out of range")
  /\ nth_friday 2025 1 53 = 367 /\ days_in_month 2025 1 = 31
  /\ get_nth_weekend_dates 2025 1 53 = Ok (Some 2, Some 4).
Proof. vm_compute. repeat split. Qed.

(* ===================================================================== *)
(** ** The ports of the desktops *)
(* ===================================================================== *)

(** C9.  The four ports of the desktop of weekend number [n] are the
    defaults 5900, 8000, 3838 and 2828, each with the same offset: the
    0-based index [n - 1] of the weekend. *)
Theorem ports_are_base_plus_index (n : Z) :
  let i := n - 1 in
  vnc_port (desktop_of n) = 5900 + i
  /\ api_port (desktop_of n) = 8000 + i
  /\ marionette_port (desktop_of n) = 3838 + i
  /\ socat_port (desktop_of n) = 2828 + i
  /\ ports (desktop_of n) = List.map (fun b => b + i) [5900; 8000; 3838; 2828].
Proof.
  unfold ports, desktop_of. simpl. repeat split; try lia.
  repeat f_equal; lia.
Qed.

(** The ports of two desktops are apart as soon as the weekend numbers
    differ by less than 1010, the least distance between two defaults. *)
Lemma ports_apart (i j p : Z) :
  i <> j -> Z.abs (i - j) < 1010 ->
  In p (ports (desktop_of i)) -> ~ In p (ports (desktop_of j)).
Proof.
  intros Hne Hd. unfold ports, desktop_of. simpl. lia.
Qed.

(** C3.  Two different weekends of the pool are given desktops without a
    port in common, whatever the kinds of the two ports. *)
Theorem ports_pairwise_disjoint (i j p : Z) :
  In i weekends -> In j weekends -> i <> j ->
  In p (ports (desktop_of i)) -> ~ In p (ports (desktop_of j)).
Proof.
  intros Hi Hj Hne. apply ports_apart; [exact Hne|].
  unfold weekends in *. simpl in Hi, Hj. lia.
Qed.

Lemma ports_pairwise_disjoint_witness :
  In 1 weekends /\ In 2 weekends /\ 1 <> 2
  /\ In 5900 (ports (desktop_of 1)) /\ ~ In 5900 (ports (desktop_of 2)).
Proof.
  assert (H1 : In 1 weekends) by (simpl; lia).
  assert (H2 : In 2 weekends) by (simpl; lia).
  assert (H3 : 1 <> 2) by lia.
  assert (H4 : In 5900 (ports (desktop_of 1))) by (simpl; lia).
  refine (conj H1 (conj H2 (conj H3 (conj H4 _)))).
  exact (ports_pairwise_disjoint 1 2 5900 H1 H2 H3 H4).
Defined.

(** The same for any pool of up to 1010 weekends numbered from 1. *)
Lemma ports_disjoint_in_pool (N i j p : Z) :
  N <= 1010 -> 1 <= i <= N -> 1 <= j <= N -> i <> j ->
  In p (ports (desktop_of i)) -> ~ In p (ports (desktop_of j)).
Proof.
  intros HN Hi Hj Hne. apply ports_apart; [exact Hne|lia].
Qed.

(** Weekend numbers 1010 apart do collide. *)
Example ports_collide_far_apart :
  In 3838 (ports (desktop_of 1)) /\ In 3838 (ports (desktop_of 1011)).
Proof. simpl. lia. Qed.

(* ===================================================================== *)
(** ** One unit of work: [check_flight_price] *)
(* ===================================================================== *)

Lemma month_map_keys (month : string) :
  is_Some (month_map !! month) ->
  In month ["1"; "2"; "3"; "4"; "5"; "6"; "7"; "8"; "9"; "10"; "11"; "12"].
Proof.
  intros [v Hv]. unfold month_map in Hv.
  apply elem_of_list_to_map_2 in Hv.
  repeat (apply elem_of_cons in Hv as [Hv|Hv];
          [injection Hv as -> _; simpl; tauto|]).
  inversion Hv.
Qed.

(** The keys of [month_map] are read by [int] as the months 1 to 12. *)
Lemma int_month (month : string) :
  is_Some (month_map !! month) -> exists m, int month = Ok m /\ 1 <= m <= 12.
Proof.
  intros H. apply month_map_keys in H. simpl in H.
  repeat (destruct H as [<-|H];
          [eexists; split; [vm_compute; reflexivity|lia]|]).
  destruct H.
Qed.

Lemma first_friday_bounds (y m : Z) : 1 <= first_friday y m <= 7.
Proof.
  rewrite first_friday_offset.
  pose proof (Z.mod_pos_bound (4 - weekday (Date y m 1)) 7 eq_refl). lia.
Qed.

(** In 2025 the dates of the five weekends are found without exception. *)
Lemma dates_2025 (m n : Z) :
  1 <= m <= 12 -> In n weekends ->
  exists dates, get_nth_weekend_dates 2025 m n = Ok dates.
Proof.
  intros Hm Hn.
  assert (Hn' : 1 <= n <= 5) by (simpl in Hn; lia).
  eexists. apply weekend_dates; try lia.
  pose proof (first_friday_bounds 2025 m) as Hf.
  pose proof (day_of_year_bounds 2025 m 1 Hm) as Hd.
  assert (Hdim : 28 <= days_in_month 2025 m).
  { unfold days_in_month, index. months m H; simpl; lia. }
  specialize (Hd ltac:(lia)).
  unfold nth_friday, ymd2ord, MAXORDINAL in *.
  change (days_before_year 2025) with 739251.
  change (is_leap 2025) with false in Hd. lia.
Qed.

(** The trace and the outcome of a unit of work whose desktop has
    started and whose dates were found, path by path. *)
Lemma check_flight_price_run (w : world) (month origin destination : string)
    (n : Z) (container : string) (m : Z) (dates : option Z * option Z) :
  start_result w = Ok container ->
  int month = Ok m ->
  get_nth_weekend_dates 2025 m n = Ok dates ->
  let d := desktop_of n in
  run (check_flight_price w month origin destination n) =
  match dates with
  | (Some friday_date, Some sunday_date) =>
      match getitem month_map month with
      | Raise e =>
          ([Start d; Stop d],
           _ ← stop_result w; Ok (Some ("EXCEPTION: " ++ exn_str e)))
      | Ok month_name =>
          ([Start d;
            Action d (prompt_text origin destination month_name n
                                  friday_date sunday_date);
            Stop d],
           _ ← stop_result w;
           match action_result w with
           | Raise e =>
               if is_Exception e then Ok (Some ("EXCEPTION: " ++ exn_str e))
               else Raise e
           | Ok answer =>
               Ok (Some
                 match answer with
                 | (COMPLETE, data) =>
                     match output_text data with
                     | Some text => text
                     | None =>
                         "EXCEPTION: object has no attribute 'output_text'"
                     end
                 | (ERROR, data) =>
                     "ERROR: " ++ default "Unknown error" (error_message data)
                 | (status, _) => "UNKNOWN: Status " ++ status_str status
                 end)
           end)
      end
  | _ => ([Start d; Stop d], _ ← stop_result w; Ok None)
  end.
Proof.
  intros Hs Hi Hd. unfold run, check_flight_price.
  unfold mbind at 1. unfold io_bind at 1. unfold call at 1. rewrite Hs.
  unfold mbind at 1. unfold io_bind at 1. unfold lift at 1. rewrite Hi.
  unfold mbind at 1. unfold io_bind at 1. unfold lift at 1. rewrite Hd.
  simpl app.
  destruct dates as [[friday_date|] [sunday_date|]];
    unfold try_finally, try_except, stop, call, lift, mbind, io_bind,
           mret, io_ret, result_bind;
    simpl app.
  - unfold getitem. destruct (month_map !! month) as [month_name|].
    + destruct (action_result w) as [[status data]|e].
      * destruct status, (output_text data), (stop_result w); reflexivity.
      * destruct (is_Exception e), (stop_result w); reflexivity.
    + destruct (stop_result w); reflexivity.
  - destruct (stop_result w); reflexivity.
  - destruct (stop_result w); reflexivity.
  - destruct (stop_result w); reflexivity.
Qed.

(** A text that starts with a capital [E] or [U], as the failure texts
    do, is not a number for [float]. *)
Lemma float_of_string_marked (c : ascii) (s : string) :
  c = "E"%char \/ c = "U"%char -> float_of_string (String c s) = None.
Proof.
  intros Hc.
  unfold float_of_string, number_chars, chars.
  assert (E : exists t,
             rstrip is_number_space
               (lstrip is_number_space (list_ascii_of_string (String c s)))
             = c :: t).
  { destruct Hc as [-> | ->]; simpl;
      destruct (rstrip is_number_space (list_ascii_of_string s)); eauto. }
  destruct E as [t ->].
  destruct Hc as [-> | ->]; reflexivity.
Qed.

Lemma failure_texts_not_numeric (detail : string) :
  float_of_string ("ERROR: " ++ detail) = None
  /\ float_of_string ("EXCEPTION: " ++ detail) = None
  /\ float_of_string ("UNKNOWN: Status " ++ detail) = None.
Proof. repeat split; apply float_of_string_marked; auto. Qed.

(** The calls of [main] of the second example: the desktop is started,
    the action is run, and nothing else. *)
Lemma linkedin_trace (start_result : result string)
    (auto_result : result (AgentStatus * response)) (e : Machine.engine)
    (fuel : nat) (g : LinkedIn.globals) :
  let d := MkDesktop "newdesktop" 5900 8000 3838 2828 in
  fst (run (LinkedIn.main start_result auto_result e fuel g)) =
  match start_result with
  | Ok _ => [Start d; Action d LinkedIn.user_prompt]
  | Raise _ => [Start d]
  end.
Proof.
  unfold run, LinkedIn.main, LinkedIn.auto_mode.
  unfold mbind at 1. unfold io_bind at 1. unfold call at 1.
  destruct start_result as [container|err]; [|reflexivity].
  unfold try_except, mbind, io_bind, call. simpl app.
  destruct (Machine.caller <$> _) as [g'|]; [|reflexivity].
  destruct (LinkedIn.result0 g') as [data|]; [|reflexivity].
  destruct (output_text data); reflexivity.
Qed.

(** C1, as the code has it.  A unit of work of the flight checker, as
    [main] submits it (the month is a key of [month_map], the weekend is
    one of [weekends]), whose desktop has started, calls [stop] exactly
    once, and as its last call, on every way out: the early return for a
    weekend that the month does not have, a completed, failed or
    unrecognised action, and an exception raised in the action.  The
    second example starts its desktop and never stops it. *)
Theorem session_stopped_once (w : world) (month origin destination : string)
    (n : Z) (container : string) :
  is_Some (month_map !! month) -> In n weekends ->
  start_result w = Ok container ->
  (let tr := fst (run (check_flight_price w month origin destination n)) in
   count_stops tr = 1%nat /\ last tr = Some (Stop (desktop_of n)))
  /\ (forall start_result auto_result e fuel g,
        count_stops
          (fst (run (LinkedIn.main start_result auto_result e fuel g)))
        = 0%nat).
Proof.
  intros Hmonth Hn Hstart. split.
  - destruct (int_month month Hmonth) as (m & Hint & Hm).
    destruct (dates_2025 m n Hm Hn) as (dates & Hdates).
    cbv zeta.
    rewrite (check_flight_price_run w month origin destination n container
               m dates Hstart Hint Hdates).
    cbv zeta.
    destruct dates as [[friday_date|] [sunday_date|]];
      try destruct (getitem month_map month); split; reflexivity.
  - intros sr ar e fuel g. rewrite linkedin_trace.
    destruct sr; reflexivity.
Qed.

Lemma session_stopped_once_witness :
  is_Some (month_map !! "3") /\ In 2 weekends
  /\ start_result (world_complete "231") = Ok "container"
  /\ count_stops
       (fst (run (check_flight_price (world_complete "231") "3"
                                     "Oslo" "Rome" 2))) = 1%nat.
Proof.
  assert (H1 : is_Some (month_map !! "3")) by (vm_compute; eauto).
  assert (H2 : In 2 weekends) by (simpl; lia).
  assert (H3 : start_result (world_complete "231") = Ok "container")
    by reflexivity.
  refine (conj H1 (conj H2 (conj H3 _))).
  exact (proj1 (proj1 (session_stopped_once (world_complete "231") "3"
                         "Oslo" "Rome" 2 "container" H1 H2 H3))).
Defined.

(** C1, as the spec has it, fails on the second example: its [main]
    starts the desktop, reports the result of the action, and has not
    called [stop]. *)
Lemma session_never_stopped_linkedin :
  let r := run (LinkedIn.main (Ok "container")
                  (Ok (COMPLETE, Response None None))
                  (engine_finished "[]") 1 (operator [])) in
  In (Start (MkDesktop "newdesktop" 5900 8000 3838 2828)) (fst r)
  /\ snd r = Ok (Some (LinkedIn.ResultText "[]"))
  /\ count_stops (fst r) = 0%nat.
Proof. vm_compute. repeat split. left. reflexivity. Qed.

(** C8.  When the action of a unit of work comes back with a status
    that is neither [COMPLETE] nor [ERROR], the unit of work stops its
    desktop and returns the text [UNKNOWN: Status <status>]: the status is
    kept in the outcome, the outcome carries the failure mark and not the
    agent's output, and the text is no number, so that it is stored but
    never taken for a price. *)
Theorem unknown_status_is_a_failure (w : world)
    (month origin destination month_name container : string)
    (n m friday_date sunday_date : Z) (status : AgentStatus)
    (data : response) :
  start_result w = Ok container ->
  int month = Ok m ->
  get_nth_weekend_dates 2025 m n = Ok (Some friday_date, Some sunday_date) ->
  month_map !! month = Some month_name ->
  action_result w = Ok (status, data) ->
  status <> COMPLETE -> status <> ERROR ->
  let outcome := "UNKNOWN: Status " ++ status_str status in
  snd (run (check_flight_price w month origin destination n))
  = (_ ← stop_result w; Ok (Some outcome))
  /\ count_stops (fst (run (check_flight_price w month origin destination n)))
     = 1%nat
  /\ float_of_string outcome = None
  /\ (forall st,
        collect st n (Ok (Some outcome))
        = Ok (Summary (<[n := outcome]> (results st)) (cheapest_weekend st))).
Proof.
  intros Hs Hi Hd Hm Ha Hc He outcome.
  rewrite (check_flight_price_run w month origin destination n container m
             _ Hs Hi Hd).
  cbv zeta. unfold getitem. rewrite Hm, Ha.
  assert (Hf : float_of_string outcome = None)
    by apply failure_texts_not_numeric.
  repeat split.
  - destruct status; try reflexivity; congruence.
  - exact Hf.
  - intros st. unfold collect. rewrite Hf. reflexivity.
Qed.

Lemma unknown_status_is_a_failure_witness :
  let w := world_status NEEDS_INPUT in
  start_result w = Ok "container"
  /\ int "3" = Ok 3
  /\ get_nth_weekend_dates 2025 3 2 = Ok (Some 14, Some 16)
  /\ month_map !! "3" = Some "March"
  /\ action_result w = Ok (NEEDS_INPUT, Response None None)
  /\ NEEDS_INPUT <> COMPLETE /\ NEEDS_INPUT <> ERROR
  /\ snd (run (check_flight_price w "3" "Oslo" "Rome" 2))
     = Ok (Some "UNKNOWN: Status AgentStatus.NEEDS_INPUT").
Proof.
  intros w.
  assert (H1 : start_result w = Ok "container") by reflexivity.
  assert (H2 : int "3" = Ok 3) by (vm_compute; reflexivity).
  assert (H3 : get_nth_weekend_dates 2025 3 2 = Ok (Some 14, Some 16))
    by (vm_compute; reflexivity).
  assert (H4 : month_map !! "3" = Some "March") by (vm_compute; reflexivity).
  assert (H5 : action_result w = Ok (NEEDS_INPUT, Response None None))
    by reflexivity.
  assert (H6 : NEEDS_INPUT <> COMPLETE) by discriminate.
  assert (H7 : NEEDS_INPUT <> ERROR) by discriminate.
  refine (conj H1 (conj H2 (conj H3 (conj H4 (conj H5 (conj H6 (conj H7 _))))))).
  exact (proj1 (unknown_status_is_a_failure w "3" "Oslo" "Rome" "March"
                  "container" 2 3 14 16 NEEDS_INPUT (Response None None)
                  H1 H2 H3 H4 H5 H6 H7)).
Defined.


(* ===================================================================== *)
(** ** The exceptions of the built-in functions *)
(* ===================================================================== *)

Lemma as_c_int_cases (n : Z) :
  (INT_MIN <= n <= INT_MAX /\ as_c_int n = Ok n)
  \/ (~ INT_MIN <= n <= INT_MAX
      /\ exists msg, as_c_int n = Raise (Exn OverflowError msg)).
Proof.
  unfold as_c_int, INT_MIN, INT_MAX, LONG_MIN, LONG_MAX.
  destruct (Z.ltb_spec n (-9223372036854775808)),
           (Z.ltb_spec 9223372036854775807 n); simpl;
    try (right; split; [lia|eauto]).
  destruct (Z.ltb_spec 2147483647 n); [right; split; [lia|eauto]|].
  destruct (Z.ltb_spec n (-2147483648)); [right; split; [lia|eauto]|].
  left. split; [lia|reflexivity].
Qed.

(** [date(y, m, d)] raises [OverflowError] for an argument that is no C
    integer, [ValueError] for a field out of its range, and returns the
    date otherwise. *)
Lemma mk_date_cases (y m d : Z) :
  let c_ints :=
    INT_MIN <= y <= INT_MAX /\ INT_MIN <= m <= INT_MAX
    /\ INT_MIN <= d <= INT_MAX in
  let valid :=
    1 <= y <= 9999 /\ 1 <= m <= 12 /\ 1 <= d <= days_in_month y m in
  (~ c_ints /\ exists msg, mk_date y m d = Raise (Exn OverflowError msg))
  \/ (c_ints /\ ~ valid
      /\ exists msg, mk_date y m d = Raise (Exn ValueError msg))
  \/ (c_ints /\ valid /\ mk_date y m d = Ok (Date y m d)).
Proof.
  intros c_ints valid. unfold c_ints, valid, mk_date, MINYEAR, MAXYEAR.
  destruct (as_c_int_cases y) as [[Hy ->]|[Hy [msg ->]]];
    [rewrite bind_ok|left; split; [tauto|eauto]].
  destruct (as_c_int_cases m) as [[Hm ->]|[Hm [msg ->]]];
    [rewrite bind_ok|left; split; [tauto|eauto]].
  destruct (as_c_int_cases d) as [[Hd ->]|[Hd [msg ->]]];
    [rewrite bind_ok|left; split; [tauto|eauto]].
  right.
  destruct (Z.leb_spec 1 y), (Z.leb_spec y 9999); simpl;
    try (left; split; [tauto|]; split; [lia|eauto]).
  destruct (Z.leb_spec 1 m), (Z.leb_spec m 12); simpl;
    try (left; split; [tauto|]; split; [lia|eauto]).
  destruct (Z.leb_spec 1 d), (Z.leb_spec d (days_in_month y m)); simpl;
    try (left; split; [tauto|]; split; [lia|eauto]).
  right. repeat split; tauto.
Qed.

Lemma mk_date_ok_inv (y m d : Z) (x : date) :
  mk_date y m d = Ok x ->
  x = Date y m d /\ 1 <= y <= 9999 /\ 1 <= m <= 12
  /\ 1 <= d <= days_in_month y m.
Proof.
  intros E.
  destruct (mk_date_cases y m d)
    as [(_ & msg & E')|[(_ & _ & msg & E')|(_ & Hv & E')]];
    rewrite E' in E; try discriminate E.
  injection E as <-. tauto.
Qed.

Lemma timedelta_inv (days : Z) (r : result Z) :
  timedelta days = r ->
  r = Ok days \/ exists msg, r = Raise (Exn OverflowError msg).
Proof.
  unfold timedelta. destruct (_ <=? _); [intros <-; eauto|].
  destruct (_ || _); intros <-; eauto.
Qed.

Lemma date_add_inv (d : date) (delta : Z) (r : result date) :
  date_add d delta = r ->
  (r = Ok (ord2ymd (toordinal d + delta))
   /\ 0 < toordinal d + delta <= MAXORDINAL)
  \/ exists msg, r = Raise (Exn OverflowError msg).
Proof.
  unfold date_add.
  destruct (Z.ltb_spec 0 (toordinal d + delta)),
           (Z.leb_spec (toordinal d + delta) MAXORDINAL); simpl;
    intros <-; eauto.
Qed.

(** After the first day of the month, [get_nth_weekend_dates] raises
    nothing but [OverflowError]. *)
Lemma dates_after_first_day (first_day : date) (month n : Z) (e : exn) :
  (let offset_to_friday := (4 - weekday first_day) mod 7 in
   delta ← timedelta (offset_to_friday + 7 * (n - 1));
   nth_friday ← date_add first_day delta;
   two ← timedelta 2;
   nth_sunday ← date_add nth_friday two;
   if negb (Calendar.month nth_friday =? month)
      || negb (Calendar.month nth_sunday =? month)
   then Ok (None, None)
   else Ok (Some (day nth_friday), Some (day nth_sunday))) = Raise e ->
  exn_cls e = OverflowError.
Proof.
  cbv zeta.
  destruct (timedelta_inv ((4 - weekday first_day) mod 7 + 7 * (n - 1)) _
              eq_refl) as [->|[msg ->]];
    [rewrite bind_ok|intros E; injection E as <-; reflexivity].
  destruct (date_add_inv first_day
              ((4 - weekday first_day) mod 7 + 7 * (n - 1)) _ eq_refl)
    as [[-> _]|[msg ->]];
    [rewrite bind_ok|intros E; injection E as <-; reflexivity].
  rewrite (timedelta_ok 2), bind_ok by (simpl; lia).
  match goal with
  | |- context [date_add ?d 2] =>
      destruct (date_add_inv d 2 _ eq_refl) as [[-> _]|[msg ->]]
  end; [rewrite bind_ok|intros E; injection E as <-; reflexivity].
  destruct (_ || _); discriminate.
Qed.

(** The exceptions of [get_nth_weekend_dates] are [ValueError]s and
    [OverflowError]s. *)
Lemma dates_exception (y m n : Z) (e : exn) :
  get_nth_weekend_dates y m n = Raise e ->
  exn_cls e = ValueError \/ exn_cls e = OverflowError.
Proof.
  unfold get_nth_weekend_dates.
  destruct (mk_date_cases y m 1)
    as [(_ & msg & ->)|[(_ & _ & msg & ->)|(_ & _ & ->)]].
  - intros E. injection E as <-. right. reflexivity.
  - intros E. injection E as <-. left. reflexivity.
  - rewrite bind_ok. intros E. right.
    exact (dates_after_first_day _ _ _ _ E).
Qed.

(** The exceptions of [int] are [ValueError]s. *)
Lemma int_exception (s : string) (e : exn) :
  int s = Raise e -> exn_cls e = ValueError.
Proof.
  unfold int. destruct (sign (number_chars s)) as [neg cs].
  destruct (digitpart cs) as [[ds rest]|];
    [|intros E; injection E as <-; reflexivity].
  destruct rest as [|c rest].
  - destruct (_ <? _); intros E; [injection E as <-; reflexivity|discriminate E].
  - destruct (Ascii.eqb_spec c "_") as [->|Hc].
    + intros E. injection E as <-. reflexivity.
    + assert (Hm : forall (A : Type) (a b : A),
                 match c :: rest with
                 | "_"%char :: _ => a
                 | _ => b
                 end = b).
      { intros A a b. destruct c as [[] [] [] [] [] [] [] []];
          try reflexivity. destruct (Hc eq_refl). }
      rewrite Hm. destruct (_ <? _); intros E; injection E as <-; reflexivity.
Qed.

(* ===================================================================== *)
(** ** The loop over the completed futures *)
(* ===================================================================== *)

(** The loop gets past a future unless the future raised an exception
    that is no [Exception], which then leaves the loop. *)
Lemma collect_cases (st : summary) (w : Z) (outcome : result (option string)) :
  (caught outcome /\ exists st', collect st w outcome = Ok st')
  \/ (exists e, outcome = Raise e /\ is_Exception e = false
                /\ collect st w outcome = Raise e).
Proof.
  unfold collect, caught. destruct outcome as [[text|]|e].
  - left. split; [discriminate|].
    destruct (float_of_string text) as [price|]; [|eauto].
    destruct (float_lt price (cheapest_weekend st)); eauto.
  - left. split; [discriminate|eauto].
  - destruct (is_Exception e) eqn:He.
    + left. split; [|eauto]. intros e' E. injection E as <-. exact He.
    + right. eauto.
Qed.

(** What the loop stores for one future: the returned text, nothing for
    [None], and the text of the exception for a future that raised. *)
Lemma results_collect (st st' : summary) (w : Z)
    (outcome : result (option string)) :
  collect st w outcome = Ok st' ->
  results st' =
  match entry outcome with
  | Some text => <[w := text]> (results st)
  | None => results st
  end.
Proof.
  unfold collect, entry.
  destruct outcome as [[text|]|e].
  - destruct (float_of_string text) as [price|];
      [destruct (float_lt price (cheapest_weekend st))|];
      intros E; injection E as <-; reflexivity.
  - intros E. injection E as <-. reflexivity.
  - destruct (is_Exception e); intros E; [|discriminate E].
    injection E as <-. reflexivity.
Qed.

(** The loop ends without an exception exactly when every future is
    caught. *)
Lemma collect_from_returns (completed : list (Z * result (option string))) :
  forall st : summary,
    (exists s, collect_from st completed = Ok s)
    <-> forall c, In c completed -> caught (snd c).
Proof.
  induction completed as [|[w out] cs IH]; intros st; simpl.
  - split; [intros _ c []|eauto].
  - destruct (collect_cases st w out) as [[Hc [st' E]]|(e & -> & He & E)];
      rewrite E.
    + rewrite bind_ok, IH. split.
      * intros H c [<-|Hin]; [exact Hc|exact (H c Hin)].
      * intros H c Hin. apply H. right. exact Hin.
    + split.
      * intros [s Hs]. discriminate Hs.
      * intros H. specialize (H (w, Raise e) (or_introl eq_refl) e eq_refl).
        simpl in H. congruence.
Qed.

(** The exception that leaves the loop is the one of the first future,
    in the order of completion, that is not caught. *)
Lemma collect_from_raises (completed : list (Z * result (option string))) :
  forall (st : summary) (e : exn),
    collect_from st completed = Raise e
    <-> exists before w after,
          completed = (before ++ (w, Raise e) :: after)%list
          /\ is_Exception e = false
          /\ forall c, In c before -> caught (snd c).
Proof.
  induction completed as [|[w out] cs IH]; intros st e; simpl.
  - split; [discriminate|].
    intros (before & w & after & E & _). destruct before; discriminate E.
  - destruct (collect_cases st w out) as [[Hc [st' E]]|(e' & -> & He & E)];
      rewrite E.
    + rewrite bind_ok, IH. split.
      * intros (before & w' & after & -> & He & Hb).
        exists ((w, out) :: before), w', after.
        split; [reflexivity|]. split; [exact He|].
        intros c [<-|Hin]; [exact Hc|exact (Hb c Hin)].
      * intros (before & w' & after & Heq & He & Hb).
        destruct before as [|b before]; simpl in Heq.
        -- injection Heq as -> -> ->.
           specialize (Hc e eq_refl). congruence.
        -- injection Heq as <- ->. exists before, w', after.
           split; [reflexivity|]. split; [exact He|].
           intros c Hin. apply Hb. right. exact Hin.
    + split.
      * intros Hr. injection Hr as <-. exists [], w, cs.
        split; [reflexivity|]. split; [exact He|]. intros c [].
      * intros (before & w' & after & Heq & He' & Hb).
        destruct before as [|b before]; simpl in Heq.
        -- injection Heq as -> -> ->. reflexivity.
        -- injection Heq as <- ->.
           specialize (Hb (w, Raise e') (or_introl eq_refl) e' eq_refl).
           simpl in Hb. congruence.
Qed.

Lemma results_fold_other (completed : list (Z * result (option string))) :
  forall (st s : summary) (w : Z),
    collect_from st completed = Ok s ->
    ~ In w (List.map fst completed) ->
    results s !! w = results st !! w.
Proof.
  induction completed as [|[w0 out0] cs IH]; intros st s w Hs Hw; simpl in *.
  - injection Hs as <-. reflexivity.
  - destruct (collect st w0 out0) as [st'|e] eqn:E; [|discriminate Hs].
    rewrite bind_ok in Hs. rewrite (IH _ _ _ Hs) by tauto.
    rewrite (results_collect _ _ _ _ E).
    destruct (entry out0); [|reflexivity].
    apply lookup_insert_ne. tauto.
Qed.

Lemma results_fold_entry (completed : list (Z * result (option string))) :
  forall (st s : summary) (w : Z) (outcome : result (option string)),
    collect_from st completed = Ok s ->
    List.NoDup (List.map fst completed) ->
    In (w, outcome) completed ->
    results s !! w
    = match entry outcome with
      | Some text => Some text
      | None => results st !! w
      end.
Proof.
  induction completed as [|[w0 out0] cs IH]; intros st s w outcome Hs Hnd Hin;
    [destruct Hin|].
  simpl in *. inversion Hnd as [|? ? Hw0 Hnd']; subst.
  destruct (collect st w0 out0) as [st'|e] eqn:E; [|discriminate Hs].
  rewrite bind_ok in Hs.
  destruct Hin as [E'|Hin].
  - injection E' as -> ->. rewrite (results_fold_other _ _ _ _ Hs Hw0).
    rewrite (results_collect _ _ _ _ E). destruct (entry outcome); [|reflexivity].
    apply lookup_insert_eq.
  - rewrite (IH _ _ _ _ Hs Hnd' Hin). destruct (entry outcome); [reflexivity|].
    rewrite (results_collect _ _ _ _ E). destruct (entry out0); [|reflexivity].
    apply lookup_insert_ne. intros ->. apply Hw0.
    apply (in_map fst) in Hin. exact Hin.
Qed.

(** The mapping after the loop, entry by entry. *)
Lemma results_collect_all (completed : list (Z * result (option string)))
    (s : summary) (w : Z) :
  collect_all completed = Ok s ->
  List.NoDup (List.map fst completed) ->
  (forall outcome, In (w, outcome) completed ->
     results s !! w = entry outcome)
  /\ (~ In w (List.map fst completed) -> results s !! w = None).
Proof.
  intros Hs Hnd. unfold collect_all in Hs. split.
  - intros outcome Hin. rewrite (results_fold_entry _ _ _ _ _ Hs Hnd Hin).
    simpl. destruct (entry outcome); [reflexivity|apply lookup_empty].
  - intros Hw. rewrite (results_fold_other _ _ _ _ Hs Hw). apply lookup_empty.
Qed.

Lemma weekends_nodup : List.NoDup weekends.
Proof. unfold weekends. repeat constructor; simpl; lia. Qed.

Lemma completion_nodup (completion : list Z) :
  Permutation completion weekends -> List.NoDup completion.
Proof.
  intros H. apply (Permutation_NoDup (Permutation_sym H)), weekends_nodup.
Qed.

Lemma keys_of_futures {A : Type} (f : Z -> A) (completion : list Z) :
  List.map fst (List.map (fun weekend => (weekend, f weekend)) completion)
  = completion.
Proof. rewrite List.map_map. simpl. apply List.map_id. Qed.

(** [main] gets to the loop whenever the month is a key of
    [month_map]. *)
Lemma main_returns (line1 line2 line3 : string) (worlds : Z -> world)
    (completion : list Z) :
  is_Some (month_map !! strip line3) ->
  main line1 line2 line3 worlds completion
  = collect_all
      (List.map
         (fun weekend =>
            (weekend,
             future worlds (strip line3) (strip line1) (strip line2)
                    weekend))
         completion).
Proof.
  intros [v Hv]. unfold main, getitem. rewrite Hv. reflexivity.
Qed.

Lemma main_month (line1 line2 line3 : string) (worlds : Z -> world)
    (completion : list Z) (s : summary) :
  main line1 line2 line3 worlds completion = Ok s ->
  is_Some (month_map !! strip line3).
Proof.
  unfold main, getitem. destruct (month_map !! strip line3); [eauto|].
  discriminate.
Qed.

(** The loop of [main], once [main] has returned. *)
Lemma main_loop (line1 line2 line3 : string) (worlds : Z -> world)
    (completion : list Z) (s : summary) :
  main line1 line2 line3 worlds completion = Ok s ->
  collect_all
    (List.map
       (fun weekend =>
          (weekend,
           future worlds (strip line3) (strip line1) (strip line2) weekend))
       completion)
  = Ok s.
Proof.
  intros Hmain. rewrite <- main_returns; [exact Hmain|].
  exact (main_month _ _ _ _ _ _ Hmain).
Qed.

(** [main] returns exactly when the month is a key of [month_map] and no
    unit of work raises an exception that is no [Exception]. *)
Lemma main_returns_iff (line1 line2 line3 : string) (worlds : Z -> world)
    (completion : list Z) :
  Permutation completion weekends ->
  (exists s, main line1 line2 line3 worlds completion = Ok s)
  <-> is_Some (month_map !! strip line3)
      /\ forall w, In w weekends ->
           caught (future worlds (strip line3) (strip line1) (strip line2) w).
Proof.
  intros Hp. split.
  - intros [s Hs]. pose proof (main_month _ _ _ _ _ _ Hs) as Hmonth.
    split; [exact Hmonth|]. intros w Hw.
    apply main_loop in Hs. unfold collect_all in Hs.
    pose proof (proj1 (collect_from_returns _ _) (ex_intro _ s Hs)) as Hc.
    apply (Hc (w, future worlds (strip line3) (strip line1) (strip line2) w)).
    apply in_map_iff. exists w. split; [reflexivity|].
    apply (Permutation_in _ (Permutation_sym Hp)), Hw.
  - intros [Hmonth Hc]. rewrite main_returns by exact Hmonth.
    apply collect_from_returns. intros c Hin.
    apply in_map_iff in Hin as (w & <- & Hw). simpl.
    apply Hc, (Permutation_in _ Hp), Hw.
Qed.

(** The entry of a weekend after [main]. *)
Lemma main_results (line1 line2 line3 : string) (worlds : Z -> world)
    (completion : list Z) (s : summary) (w : Z) :
  Permutation completion weekends ->
  main line1 line2 line3 worlds completion = Ok s ->
  In w weekends ->
  results s !! w
  = entry (future worlds (strip line3) (strip line1) (strip line2) w).
Proof.
  intros Hp Hmain Hw. apply main_loop in Hmain.
  apply (results_collect_all _ _ w Hmain).
  - rewrite keys_of_futures. apply completion_nodup, Hp.
  - apply in_map_iff. exists w. split; [reflexivity|].
    apply (Permutation_in _ (Permutation_sym Hp)), Hw.
Qed.

(** A number that was not submitted has no entry. *)
Lemma main_results_outside (line1 line2 line3 : string) (worlds : Z -> world)
    (completion : list Z) (s : summary) (w : Z) :
  Permutation completion weekends ->
  main line1 line2 line3 worlds completion = Ok s ->
  ~ In w weekends -> results s !! w = None.
Proof.
  intros Hp Hmain Hout. apply main_loop in Hmain.
  apply (results_collect_all _ _ w Hmain).
  - rewrite keys_of_futures. apply completion_nodup, Hp.
  - rewrite keys_of_futures. intros Hin.
    apply Hout, (Permutation_in _ Hp), Hin.
Qed.

(** A unit of work whose desktop does not start, or whose month or dates
    raise, has made the one call [start] and raises. *)
Lemma run_start_raises (w : world) (month origin destination : string)
    (n : Z) (e : exn) :
  start_result w = Raise e ->
  run (check_flight_price w month origin destination n)
  = ([Start (desktop_of n)], Raise e).
Proof.
  intros Hs. unfold run, check_flight_price, mbind, io_bind, call.
  rewrite Hs. reflexivity.
Qed.

Lemma run_month_raises (w : world) (month origin destination : string)
    (n : Z) (container : string) (e : exn) :
  start_result w = Ok container -> int month = Raise e ->
  run (check_flight_price w month origin destination n)
  = ([Start (desktop_of n)], Raise e).
Proof.
  intros Hs Hi. unfold run, check_flight_price, mbind, io_bind, call, lift.
  rewrite Hs, Hi. reflexivity.
Qed.

Lemma run_dates_raise (w : world) (month origin destination : string)
    (n : Z) (container : string) (m : Z) (e : exn) :
  start_result w = Ok container -> int month = Ok m ->
  get_nth_weekend_dates 2025 m n = Raise e ->
  run (check_flight_price w month origin destination n)
  = ([Start (desktop_of n)], Raise e).
Proof.
  intros Hs Hi Hd. unfold run, check_flight_price, mbind, io_bind, call, lift.
  rewrite Hs, Hi, Hd. reflexivity.
Qed.

(** A unit of work returns [None] only on its early return: the desktop
    has started and was stopped, and the month lacks the Friday or the
    Sunday of that weekend. *)
Lemma future_none (worlds : Z -> world) (month origin destination : string)
    (w : Z) :
  future worlds month origin destination w = Ok None ->
  exists container m friday_date sunday_date,
    start_result (worlds w) = Ok container
    /\ int month = Ok m
    /\ get_nth_weekend_dates 2025 m w = Ok (friday_date, sunday_date)
    /\ (friday_date = None \/ sunday_date = None)
    /\ stop_result (worlds w) = Ok tt.
Proof.
  unfold future. intros H.
  destruct (start_result (worlds w)) as [container|e] eqn:Hs;
    [|rewrite (run_start_raises _ _ _ _ _ _ Hs) in H; discriminate H].
  destruct (int month) as [m|e] eqn:Hi;
    [|rewrite (run_month_raises _ _ _ _ _ _ _ Hs Hi) in H; discriminate H].
  destruct (get_nth_weekend_dates 2025 m w) as [dates|e] eqn:Hd;
    [|rewrite (run_dates_raise _ _ _ _ _ _ _ _ Hs Hi Hd) in H;
      discriminate H].
  rewrite (check_flight_price_run _ _ _ _ _ _ _ _ Hs Hi Hd) in H.
  cbv zeta in H. exists container, m, (fst dates), (snd dates).
  destruct dates as [[friday_date|] [sunday_date|]]; simpl in *;
    try (destruct (getitem month_map month);
         [destruct (action_result (worlds w)) as [answer|e];
          [|destruct (is_Exception e)]|]);
    destruct (stop_result (worlds w)) as [[]|]; try discriminate H;
    repeat split; auto.
Qed.

(** C2, as the code has it.  After the loop over the completed futures,
    the mapping has an entry for every submitted weekend whose unit of
    work returned a text or raised: the text, or [ERROR: ] and the text of
    the exception.  A weekend whose unit of work returned [None], which it
    does only when the month lacks that weekend, has no entry. *)
Theorem outcome_for_every_answered_task (line1 line2 line3 : string)
    (worlds : Z -> world) (completion : list Z) (s : summary) (w : Z) :
  Permutation completion weekends ->
  main line1 line2 line3 worlds completion = Ok s ->
  In w weekends ->
  let fut :=
    future worlds (strip line3) (strip line1) (strip line2) w in
  (forall text, fut = Ok (Some text) -> results s !! w = Some text)
  /\ (forall e, fut = Raise e ->
        results s !! w = Some ("ERROR: " ++ exn_str e))
  /\ (results s !! w = None <-> fut = Ok None)
  /\ (fut = Ok None ->
        exists m friday_date sunday_date,
          int (strip line3) = Ok m
          /\ get_nth_weekend_dates 2025 m w = Ok (friday_date, sunday_date)
          /\ (friday_date = None \/ sunday_date = None)).
Proof.
  intros Hp Hmain Hw fut.
  pose proof (main_results _ _ _ _ _ _ _ Hp Hmain Hw) as E. fold fut in E.
  assert (Hc : caught fut).
  { apply (proj1 (main_returns_iff line1 line2 line3 worlds completion Hp)
             (ex_intro _ s Hmain)), Hw. }
  split; [|split; [|split]].
  - intros text Hf. rewrite E, Hf. reflexivity.
  - intros e Hf. rewrite E, Hf. simpl. rewrite (Hc e Hf). reflexivity.
  - rewrite E. destruct fut as [[text|]|e]; simpl;
      try rewrite (Hc e eq_refl); split; congruence.
  - intros Hf. destruct (future_none _ _ _ _ _ Hf)
      as (c & m & fd & sd & _ & Hi & Hd & Hn & _).
    exists m, fd, sd. auto.
Qed.

Lemma outcome_for_every_answered_task_witness :
  let worlds := fun _ : Z => world_fault "boom" in
  exists s,
    Permutation [3; 1; 2; 5; 4] weekends
    /\ main " Oslo" "Rome " "3" worlds [3; 1; 2; 5; 4] = Ok s
    /\ In 2 weekends
    /\ results s !! 2 = Some "EXCEPTION: boom".
Proof.
  intros worlds.
  assert (H1 : Permutation [3; 1; 2; 5; 4] weekends).
  { unfold weekends.
    apply (Permutation_trans (l' := [1; 3; 2; 5; 4])); [apply perm_swap|].
    apply perm_skip.
    apply (Permutation_trans (l' := [2; 3; 5; 4])); [apply perm_swap|].
    apply perm_skip, perm_skip, perm_swap. }
  assert (H3 : In 2 weekends) by (simpl; lia).
  eexists.
  assert (H2 : main " Oslo" "Rome " "3" worlds [3; 1; 2; 5; 4] = Ok _)
    by (vm_compute; reflexivity).
  refine (conj H1 (conj H2 (conj H3 _))).
  apply (proj1 (outcome_for_every_answered_task " Oslo" "Rome " "3" worlds
                  [3; 1; 2; 5; 4] _ 2 H1 H2 H3)).
  vm_compute. reflexivity.
Defined.

(** C2, as the spec has it, fails: for February 2025 the fifth weekend
    is submitted, its unit of work returns [None], and the mapping has no
    entry for it once every future is done. *)
Lemma no_outcome_for_missing_weekend :
  exists s,
    main "Oslo" "Rome" "2" (fun _ => world_complete "231") weekends = Ok s
    /\ In 5 weekends
    /\ future (fun _ => world_complete "231") "2" "Oslo" "Rome" 5 = Ok None
    /\ results s !! 5 = None.
Proof.
  eexists. split; [vm_compute; reflexivity|].
  split; [simpl; lia|]. split; vm_compute; reflexivity.
Qed.

(** When the exceptions that the package raises in the unit of work of
    the weekend [w] are all [Exception]s, so is the exception that the
    unit of work raises. *)
Lemma faults_caught (worlds : Z -> world)
    (month origin destination : string) (w : Z) :
  (forall e,
     start_result (worlds w) = Raise e \/ action_result (worlds w) = Raise e
     \/ stop_result (worlds w) = Raise e ->
     is_Exception e = true) ->
  caught (future worlds month origin destination w).
Proof.
  intros Hw e H. unfold future in H.
  destruct (start_result (worlds w)) as [container|e0] eqn:Hs.
  2:{ rewrite (run_start_raises _ _ _ _ _ _ Hs) in H. injection H as ->.
      apply Hw. auto. }
  destruct (int month) as [m|e0] eqn:Hi.
  2:{ rewrite (run_month_raises _ _ _ _ _ _ _ Hs Hi) in H. injection H as ->.
      unfold is_Exception. rewrite (int_exception _ _ Hi). reflexivity. }
  destruct (get_nth_weekend_dates 2025 m w) as [dates|e0] eqn:Hd.
  2:{ rewrite (run_dates_raise _ _ _ _ _ _ _ _ Hs Hi Hd) in H.
      injection H as ->. unfold is_Exception.
      destruct (dates_exception _ _ _ _ Hd) as [-> | ->]; reflexivity. }
  rewrite (check_flight_price_run _ _ _ _ _ _ _ _ Hs Hi Hd) in H.
  cbv zeta in H.
  destruct (stop_result (worlds w)) as [[]|e0] eqn:Hstop.
  2:{ assert (E : e = e0).
      { destruct dates as [[friday_date|] [sunday_date|]]; simpl in H;
          try destruct (getitem month_map month); simpl in H;
          injection H as ->; reflexivity. }
      subst e0. apply Hw. auto. }
  destruct dates as [[friday_date|] [sunday_date|]]; simpl in H;
    try discriminate H.
  destruct (getitem month_map month); simpl in H; [|discriminate H].
  destruct (action_result (worlds w)) as [answer|e0] eqn:Ha;
    [discriminate H|].
  destruct (is_Exception e0) eqn:He; [discriminate H|].
  rewrite (Hw e0) in He by auto. discriminate He.
Qed.

(** C6, as the code has it.  An [Exception] raised anywhere in one unit
    of work ends as an entry of the mapping that carries its text, and
    [main] still returns: an exception that leaves [check_flight_price]
    (from [start], from the dates, from [stop]) is raised again by
    [future.result()] and stored as [ERROR: ...]; an exception of the
    action is caught in the unit of work and stored as [EXCEPTION: ...].
    The entry of a weekend depends on its own unit of work only, so the
    other weekends are not affected. *)
Theorem faults_become_outcomes (line1 line2 line3 : string)
    (worlds : Z -> world) (completion : list Z) :
  Permutation completion weekends ->
  is_Some (month_map !! strip line3) ->
  (forall w e,
     In w weekends ->
     start_result (worlds w) = Raise e \/ action_result (worlds w) = Raise e
     \/ stop_result (worlds w) = Raise e ->
     is_Exception e = true) ->
  exists s,
    main line1 line2 line3 worlds completion = Ok s
    /\ forall w, In w weekends ->
         (forall e,
            future worlds (strip line3) (strip line1) (strip line2) w
            = Raise e ->
            results s !! w = Some ("ERROR: " ++ exn_str e))
         /\ (forall e container m friday_date sunday_date,
               start_result (worlds w) = Ok container ->
               int (strip line3) = Ok m ->
               get_nth_weekend_dates 2025 m w
               = Ok (Some friday_date, Some sunday_date) ->
               action_result (worlds w) = Raise e ->
               results s !! w
               = Some match stop_result (worlds w) with
                      | Ok _ => "EXCEPTION: " ++ exn_str e
                      | Raise e' => "ERROR: " ++ exn_str e'
                      end)
         /\ (forall worlds' s',
               worlds' w = worlds w ->
               main line1 line2 line3 worlds' completion = Ok s' ->
               results s' !! w = results s !! w).
Proof.
  intros Hp Hmonth Hfaults.
  assert (Hc : forall w, In w weekends ->
               caught (future worlds (strip line3) (strip line1)
                              (strip line2) w)).
  { intros w Hw. apply faults_caught. intros e. apply Hfaults, Hw. }
  destruct (proj2 (main_returns_iff line1 line2 line3 worlds completion Hp)
              (conj Hmonth Hc)) as [s Hs].
  exists s. split; [exact Hs|].
  intros w Hw.
  pose proof (main_results line1 line2 line3 worlds completion _ w Hp Hs Hw)
    as E.
  split; [|split].
  - intros e Hf. rewrite E, Hf. simpl. rewrite (Hc w Hw e Hf). reflexivity.
  - intros e container m fd sd Hstart Hi Hd Ha. rewrite E. unfold future.
    rewrite (check_flight_price_run _ _ _ _ _ _ _ _ Hstart Hi Hd). cbv zeta.
    destruct Hmonth as [month_name Hm]. unfold getitem. rewrite Hm, Ha.
    rewrite (Hfaults w e Hw) by auto.
    destruct (stop_result (worlds w)) as [[]|e'] eqn:Hstop; simpl;
      [reflexivity|].
    rewrite (Hfaults w e' Hw) by auto. reflexivity.
  - intros worlds' s' Hsame Hmain'.
    rewrite (main_results _ _ _ _ _ _ _ Hp Hmain' Hw), E.
    unfold future. rewrite Hsame. reflexivity.
Qed.

Lemma faults_become_outcomes_witness :
  let worlds := fun w : Z =>
    if w =? 2 then world_fault "boom" else world_complete "231" in
  Permutation weekends weekends
  /\ is_Some (month_map !! strip " 3 ")
  /\ (forall w e,
        In w weekends ->
        start_result (worlds w) = Raise e
        \/ action_result (worlds w) = Raise e
        \/ stop_result (worlds w) = Raise e ->
        is_Exception e = true)
  /\ exists s, main "Oslo" "Rome" " 3 " worlds weekends = Ok s.
Proof.
  intros worlds.
  assert (H1 : Permutation weekends weekends) by apply Permutation_refl.
  assert (H2 : is_Some (month_map !! strip " 3 ")) by (vm_compute; eauto).
  assert (H3 : forall w e,
             In w weekends ->
             start_result (worlds w) = Raise e
             \/ action_result (worlds w) = Raise e
             \/ stop_result (worlds w) = Raise e ->
             is_Exception e = true).
  { intros w e _ H. unfold worlds in H.
    destruct (w =? 2); simpl in H; destruct H as [H|[H|H]];
      try discriminate H.
    injection H as <-. reflexivity. }
  refine (conj H1 (conj H2 (conj H3 _))).
  destruct (faults_become_outcomes "Oslo" "Rome" " 3 " worlds weekends
              H1 H2 H3) as [s [Hs _]].
  exists s. exact Hs.
Defined.

(** One weekend fails, the others answer, and March 2025 has no fifth
    weekend. *)
Example one_fault_among_five :
  let worlds := fun w : Z =>
    if w =? 2 then world_fault "boom" else world_complete "231" in
  exists s,
    main "Oslo" "Rome" "3" worlds [4; 2; 5; 1; 3] = Ok s
    /\ List.map (fun w => results s !! w) weekends
       = [Some "231"; Some "EXCEPTION: boom"; Some "231"; Some "231"; None].
Proof. eexists. split; vm_compute; reflexivity. Qed.

(** C6, as the spec has it, fails for a fault that is no [Exception]:
    when the action of the second weekend raises [SystemExit], neither
    the unit of work nor the loop of [main] catches it; the call
    [future.result()] raises it again and it leaves [main], with no
    mapping and no outcome for any weekend. *)
Lemma fault_outside_exception_leaves_main :
  let worlds := fun w : Z =>
    if w =? 2 then world_exit "1" else world_complete "231" in
  is_Exception (Exn SystemExit "1") = false
  /\ action_result (worlds 2) = Raise (Exn SystemExit "1")
  /\ run (check_flight_price (worlds 2) "3" "Oslo" "Rome" 2)
     = ([Start (desktop_of 2);
         Action (desktop_of 2) (prompt_text "Oslo" "Rome" "March" 2 14 16);
         Stop (desktop_of 2)],
        Raise (Exn SystemExit "1"))
  /\ main "Oslo" "Rome" "3" worlds weekends = Raise (Exn SystemExit "1").
Proof. vm_compute. repeat split. Qed.

(* ===================================================================== *)
(** ** The cheapest weekend *)
(* ===================================================================== *)

Lemma float_lt_irrefl (a : float) : float_lt a a = false.
Proof. destruct a as [|[]|x]; simpl; try reflexivity. apply Z.ltb_irrefl. Qed.

Lemma float_lt_trans (a b c : float) :
  float_lt a b = true -> float_lt b c = true -> float_lt a c = true.
Proof.
  destruct a as [|[]|x], b as [|[]|y], c as [|[]|z]; simpl;
    try discriminate; try reflexivity.
  intros H1 H2. apply Z.ltb_lt. apply Z.ltb_lt in H1, H2. lia.
Qed.

(** Only plus infinity is a number that is not below plus infinity. *)
Lemma float_not_below_inf (a : float) :
  a <> NaN -> float_lt a inf = false -> a = inf.
Proof. unfold inf. destruct a as [|[]|x]; simpl; intros; congruence. Qed.

Lemma float_lt_antisym (a b : float) :
  a <> NaN -> b <> NaN ->
  float_lt a b = false -> float_lt b a = false -> a = b.
Proof.
  destruct a as [|[]|x], b as [|[]|y]; simpl; intros Ha Hb H1 H2;
    try congruence.
  apply Z.ltb_ge in H1, H2. f_equal. lia.
Qed.

Lemma cheapest_collect (st st' : summary) (w : Z)
    (outcome : result (option string)) :
  collect st w outcome = Ok st' ->
  cheapest_weekend st' =
  match outcome with
  | Ok (Some text) =>
      match float_of_string text with
      | Some price =>
          if float_lt price (cheapest_weekend st) then price
          else cheapest_weekend st
      | None => cheapest_weekend st
      end
  | _ => cheapest_weekend st
  end.
Proof.
  unfold collect. destruct outcome as [[text|]|e].
  - destruct (float_of_string text) as [price|];
      [destruct (float_lt price (cheapest_weekend st))|];
      intros E; injection E as <-; reflexivity.
  - intros E. injection E as <-. reflexivity.
  - destruct (is_Exception e); intros E; [|discriminate E].
    injection E as <-. reflexivity.
Qed.

(** The cheapest price only goes down: what is not below it stays so. *)
Lemma cheapest_fold_keeps_bound (completed : list (Z * result (option string))) :
  forall (st s : summary) (v : float),
    collect_from st completed = Ok s ->
    float_lt v (cheapest_weekend st) = false ->
    float_lt v (cheapest_weekend s) = false.
Proof.
  induction completed as [|[w out] cs IH]; intros st s v Hs Hv; simpl in Hs.
  - injection Hs as <-. exact Hv.
  - destruct (collect st w out) as [st'|e] eqn:E; [|discriminate Hs].
    rewrite bind_ok in Hs. apply (IH _ _ _ Hs).
    rewrite (cheapest_collect _ _ _ _ E).
    destruct out as [[text|]|e]; try exact Hv.
    destruct (float_of_string text) as [price|]; [|exact Hv].
    destruct (float_lt price (cheapest_weekend st)) eqn:Hp; [|exact Hv].
    destruct (float_lt v price) eqn:Hvp; [|reflexivity].
    rewrite (float_lt_trans _ _ _ Hvp Hp) in Hv. discriminate Hv.
Qed.

(** No price that was read is below the cheapest one. *)
Lemma cheapest_fold_lower_bound (completed : list (Z * result (option string))) :
  forall (st s : summary) (v : float),
    collect_from st completed = Ok s ->
    priced completed v ->
    float_lt v (cheapest_weekend s) = false.
Proof.
  induction completed as [|[w out] cs IH];
    intros st s v Hs (w' & text & Hin & Hf & Hn); [destruct Hin|].
  simpl in Hs.
  destruct (collect st w out) as [st'|e] eqn:E; [|discriminate Hs].
  rewrite bind_ok in Hs. destruct Hin as [E'|Hin].
  - injection E' as -> ->. apply (cheapest_fold_keeps_bound _ _ _ _ Hs).
    rewrite (cheapest_collect _ _ _ _ E), Hf.
    destruct (float_lt v (cheapest_weekend st)) eqn:Hv;
      [apply float_lt_irrefl|exact Hv].
  - apply (IH _ _ _ Hs). exists w', text. auto.
Qed.

(** The cheapest price is the initial one or one that was read. *)
Lemma cheapest_fold_attained (completed : list (Z * result (option string))) :
  forall st s : summary,
    collect_from st completed = Ok s ->
    cheapest_weekend s = cheapest_weekend st
    \/ priced completed (cheapest_weekend s).
Proof.
  induction completed as [|[w out] cs IH]; intros st s Hs; simpl in Hs.
  - injection Hs as <-. left. reflexivity.
  - destruct (collect st w out) as [st'|e] eqn:E; [|discriminate Hs].
    rewrite bind_ok in Hs.
    destruct (IH _ _ Hs) as [E'|(w' & text & Hin & Hf & Hn)].
    + rewrite E', (cheapest_collect _ _ _ _ E).
      destruct out as [[text|]|e]; try (left; reflexivity).
      destruct (float_of_string text) as [price|] eqn:Hf;
        [|left; reflexivity].
      destruct (float_lt price (cheapest_weekend st)) eqn:Hp;
        [|left; reflexivity].
      right. exists w, text.
      split; [left; reflexivity|]. split; [exact Hf|].
      intros ->. discriminate Hp.
    + right. exists w', text.
      split; [right; exact Hin|]. split; [exact Hf|exact Hn].
Qed.

Lemma three_outcomes_keys (completed : list (Z * result (option string))) :
  Permutation completed three_outcomes ->
  forall w, In w (List.map fst completed) -> w = 1 \/ w = 2 \/ w = 3.
Proof.
  intros Hp w Hw.
  apply (Permutation_in _ (Permutation_map fst Hp)) in Hw.
  simpl in Hw. lia.
Qed.

(** C4.  After the loop over the completed futures, every returned text
    is in the mapping, whether it reads as a number or not; the cheapest
    price is not above any number that was read, and when a number was
    read it is one of them: it is their minimum, and the texts that are
    no numbers have no part in it.  For the outcomes 1: 231,
    2: ERROR: timeout, 3: 189, in any order of arrival, the loop ends, the
    cheapest price is 189 and the mapping has the three entries. *)
Theorem best_is_the_minimum (completed : list (Z * result (option string))) :
  List.NoDup (List.map fst completed) ->
  (forall s, collect_all completed = Ok s ->
     (forall w text,
        In (w, Ok (Some text)) completed -> results s !! w = Some text)
     /\ (forall v,
           priced completed v -> float_lt v (cheapest_weekend s) = false)
     /\ ((exists v, priced completed v) ->
         priced completed (cheapest_weekend s)))
  /\ (Permutation completed three_outcomes ->
      exists s,
        collect_all completed = Ok s
        /\ cheapest_weekend s = float_of_int 189
        /\ results s
           = list_to_map [(1, "231"); (2, "ERROR: timeout"); (3, "189")]).
Proof.
  intros Hnd.
  assert (Hall : forall s, collect_all completed = Ok s ->
     (forall w text,
        In (w, Ok (Some text)) completed -> results s !! w = Some text)
     /\ (forall v,
           priced completed v -> float_lt v (cheapest_weekend s) = false)
     /\ ((exists v, priced completed v) ->
         priced completed (cheapest_weekend s))).
  { intros s Hs.
    assert (Hlow : forall v,
               priced completed v -> float_lt v (cheapest_weekend s) = false).
    { intros v Hv. exact (cheapest_fold_lower_bound _ _ _ _ Hs Hv). }
    split; [|split; [exact Hlow|]].
    - intros w text Hin.
      apply (proj1 (results_collect_all completed s w Hs Hnd) _ Hin).
    - intros [v Hv].
      destruct (cheapest_fold_attained completed _ _ Hs) as [E|P];
        [|exact P].
      change (cheapest_weekend s = inf) in E.
      pose proof (Hlow v Hv) as Hb. rewrite E in Hb.
      destruct Hv as (w & text & Hin & Hf & Hn).
      apply float_not_below_inf in Hb; [|exact Hn]. subst v.
      rewrite E. exists w, text.
      split; [exact Hin|]. split; [exact Hf|discriminate]. }
  split; [exact Hall|].
  intros Hp.
  assert (Hin : forall c, In c three_outcomes -> In c completed).
  { intros c. apply Permutation_in, Permutation_sym, Hp. }
  destruct (proj2 (collect_from_returns completed (Summary ∅ inf)))
    as [s Hs].
  { intros c Hc e He. apply (Permutation_in _ Hp) in Hc. simpl in Hc.
    destruct Hc as [<-|[<-|[<-|[]]]]; discriminate He. }
  fold (collect_all completed) in Hs.
  destruct (Hall s Hs) as (Hret & Hlow & Hmin).
  exists s. split; [exact Hs|]. split.
  - assert (P189 : priced completed (float_of_int 189)).
    { exists 3, "189". split; [|split].
      - apply Hin. simpl. tauto.
      - vm_compute. reflexivity.
      - vm_compute. discriminate. }
    destruct (Hmin (ex_intro _ _ P189)) as (w & text & Hw & Hf & _).
    apply (Permutation_in _ Hp) in Hw. simpl in Hw.
    destruct Hw as [E|[E|[E|[]]]]; injection E as <- <-.
    + pose proof (Hlow _ P189) as Hb.
      assert (E : cheapest_weekend s = float_of_int 231).
      { apply (inj Some). rewrite <- Hf. vm_compute. reflexivity. }
      rewrite E in Hb. vm_compute in Hb. discriminate Hb.
    + rewrite (float_of_string_marked "E" "RROR: timeout") in Hf by auto.
      discriminate Hf.
    + apply (inj Some). rewrite <- Hf. vm_compute. reflexivity.
  - apply map_eq. intros k.
    destruct (decide (k = 1)) as [->|N1].
    { rewrite (Hret 1 "231") by (apply Hin; simpl; tauto). reflexivity. }
    destruct (decide (k = 2)) as [->|N2].
    { rewrite (Hret 2 "ERROR: timeout") by (apply Hin; simpl; tauto).
      reflexivity. }
    destruct (decide (k = 3)) as [->|N3].
    { rewrite (Hret 3 "189") by (apply Hin; simpl; tauto). reflexivity. }
    rewrite (proj2 (results_collect_all completed s k Hs Hnd)).
    + simpl. rewrite !lookup_insert_ne by congruence.
      symmetry. apply lookup_empty.
    + intros Hk. apply (three_outcomes_keys _ Hp) in Hk. lia.
Qed.

Lemma best_is_the_minimum_witness :
  List.NoDup (List.map fst three_outcomes)
  /\ exists s,
       collect_all three_outcomes = Ok s
       /\ cheapest_weekend s = float_of_int 189
       /\ results s
          = list_to_map [(1, "231"); (2, "ERROR: timeout"); (3, "189")].
Proof.
  assert (H1 : List.NoDup (List.map fst three_outcomes))
    by (repeat constructor; simpl; lia).
  refine (conj H1 _).
  exact (proj2 (best_is_the_minimum three_outcomes H1) (Permutation_refl _)).
Defined.

(** C5, as the code has it.  When no returned text reads as a number,
    the cheapest price is still the float infinity that it started with,
    and that is what [main] prints. *)
Theorem no_number_leaves_infinity
    (completed : list (Z * result (option string))) (s : summary) :
  (forall v, ~ priced completed v) ->
  collect_all completed = Ok s ->
  cheapest_weekend s = inf.
Proof.
  intros Hnone Hs.
  destruct (cheapest_fold_attained completed _ _ Hs) as [E|P].
  - exact E.
  - destruct (Hnone _ P).
Qed.

Lemma no_number_leaves_infinity_witness :
  let s := Summary {[ 1 := "ERROR: x" ]} inf in
  (forall v, ~ priced [(1, Ok (Some "ERROR: x"))] v)
  /\ collect_all [(1, Ok (Some "ERROR: x"))] = Ok s
  /\ cheapest_weekend s = inf.
Proof.
  intros s.
  assert (H1 : forall v, ~ priced [(1, Ok (Some "ERROR: x"))] v).
  { intros v (w & text & Hin & Hf & _). simpl in Hin.
    destruct Hin as [E|[]]. injection E as <- <-.
    vm_compute in Hf. discriminate Hf. }
  assert (H2 : collect_all [(1, Ok (Some "ERROR: x"))] = Ok s)
    by (vm_compute; reflexivity).
  refine (conj H1 (conj H2 _)).
  exact (no_number_leaves_infinity [(1, Ok (Some "ERROR: x"))] s H1 H2).
Defined.

(** C5, as the spec has it, fails: with the one outcome 1: ERROR: x no
    text reads as a number, and the cheapest price is the float infinity,
    a number, the same that is reported for the outcome 1: inf, whose text
    does read as a number. *)
Lemma no_valid_result_is_not_distinct :
  (forall v, ~ priced [(1, Ok (Some "ERROR: x"))] v)
  /\ priced [(1, Ok (Some "inf"))] inf
  /\ collect_all [(1, Ok (Some "ERROR: x"))]
     = Ok (Summary {[ 1 := "ERROR: x" ]} (Inf false))
  /\ collect_all [(1, Ok (Some "inf"))]
     = Ok (Summary {[ 1 := "inf" ]} (Inf false)).
Proof.
  split; [|split; [|split]].
  - intros v (w & text & Hin & Hf & _). simpl in Hin.
    destruct Hin as [E|[]]. injection E as <- <-.
    vm_compute in Hf. discriminate Hf.
  - exists 1, "inf". split; [simpl; tauto|].
    split; [vm_compute; reflexivity|discriminate].
  - vm_compute. reflexivity.
  - vm_compute. reflexivity.
Qed.

(** The separators FS to US are white space for [strip], but not for
    [float] and [int]: a text that begins with one is no number, and the
    loop stores it without a price.  The no-break space is white space
    for all three. *)
Example separator_is_no_number_space :
  strip (String "028" "189") = "189"
  /\ float_of_string (String "028" "189") = None
  /\ float_of_string (String "160" "189") = Some (float_of_int 189)
  /\ int (String "028" "3")
     = Raise (Exn ValueError
                "invalid literal for int() with base 10: '\x1c3'")
  /\ int (String "160" "3") = Ok 3
  /\ collect_all [(1, Ok (Some (String "028" "189")))]
     = Ok (Summary {[ 1 := String "028" "189" ]} inf).
Proof. vm_compute. repeat split. Qed.
(* ===================================================================== *)
(** ** The action state machine and the handlers of the second example *)
(* ===================================================================== *)

Section MachineFacts.

Context {W : Type} (e : Machine.engine) (h : Machine.handlers W).

Lemma steps_terminal (n : nat) (r : Machine.run W) :
  Machine.terminal (Machine.st r) = true -> Machine.steps e h n r = r.
Proof.
  induction n as [|n IH]; intros Ht; [reflexivity|].
  simpl. assert (E : Machine.step e h r = r).
  { unfold Machine.step. destruct (Machine.st r); try discriminate Ht;
      reflexivity. }
  rewrite E. apply IH, Ht.
Qed.

Lemma steps_add (n k : nat) (r : Machine.run W) :
  Machine.steps e h (n + k) r = Machine.steps e h k (Machine.steps e h n r).
Proof.
  revert r. induction n as [|n IH]; intros r; [reflexivity|].
  simpl. apply IH.
Qed.

(** One step from a safety check that the handler declines. *)
Lemma step_declined (r : Machine.run W) (checks : list (option string))
    (op : string) :
  Machine.st r = Machine.NEEDS_SAFETY_CHECK checks op ->
  snd (Machine.onSafetyCheck h checks op (Machine.caller r)) = false ->
  Machine.step e h r
  = Machine.Run Machine.CANCELLED (Machine.told r) (Machine.executed r)
      (fst (Machine.onSafetyCheck h checks op (Machine.caller r))).
Proof.
  intros Hst Hno. unfold Machine.step. rewrite Hst.
  destruct (Machine.onSafetyCheck h checks op (Machine.caller r)) as [w b].
  simpl in *. subst b. reflexivity.
Qed.

End MachineFacts.

(** The safety-check handler agrees only to the line [ack], in any case
    and with blanks around it. *)
Lemma needs_safety_check_handler_ack (checks : list (option string))
    (op : string) (g : LinkedIn.globals) :
  snd (LinkedIn.needs_safety_check_handler checks op g) = true
  <-> lower (strip (LinkedIn.typed (LinkedIn.terminal g)
                      (LinkedIn.cursor (LinkedIn.terminal g)))) = "ack".
Proof.
  unfold LinkedIn.needs_safety_check_handler, LinkedIn.input. simpl.
  set (ack := lower (strip _)).
  destruct (bool_decide_reflect (ack ∈ ["exit"; "quit"])) as [Hin|Hin].
  - simpl. split; [discriminate|]. intros E. rewrite E in Hin.
    apply list_elem_of_In in Hin. simpl in Hin.
    destruct Hin as [?|[?|[]]]; discriminate.
  - destruct (bool_decide_reflect (ack = "ack")) as [E|E]; simpl.
    + tauto.
    + split; [discriminate|]. intros E'. destruct (E E').
Qed.

(** C7.  In a run of the action with the handlers of the second example,
    once the run is in [NEEDS_SAFETY_CHECK] and the safety-check handler
    returns false, the next step ends the run in [CANCELLED], which is not
    [COMPLETE], and there it stays: the action returns it; the pending
    operation is neither executed nor handed to the engine. *)
Theorem declined_safety_check_cancels (e : Machine.engine)
    (g : LinkedIn.globals) (k : nat) (checks : list (option string))
    (op : string) :
  let r := Machine.steps e LinkedIn.the_handlers k
             (Machine.start LinkedIn.user_prompt g) in
  Machine.st r = Machine.NEEDS_SAFETY_CHECK checks op ->
  snd (LinkedIn.needs_safety_check_handler checks op (Machine.caller r))
  = false ->
  forall n : nat, (1 <= n)%nat ->
    let r' := Machine.steps e LinkedIn.the_handlers (k + n)
                (Machine.start LinkedIn.user_prompt g) in
    Machine.st r' = Machine.CANCELLED
    /\ (forall output, Machine.st r' <> Machine.COMPLETE output)
    /\ Machine.executed r' = Machine.executed r
    /\ Machine.told r' = Machine.told r
    /\ Machine.action e LinkedIn.the_handlers (k + n) LinkedIn.user_prompt g
       = Some r'.
Proof.
  intros r Hst Hno n Hn r'.
  assert (E : r' = Machine.step e LinkedIn.the_handlers r).
  { unfold r'. rewrite steps_add. fold r.
    destruct n as [|n]; [lia|]. simpl.
    apply steps_terminal.
    rewrite (step_declined e LinkedIn.the_handlers r checks op Hst Hno).
    reflexivity. }
  rewrite (step_declined e LinkedIn.the_handlers r checks op Hst Hno) in E.
  assert (Hc : Machine.st r' = Machine.CANCELLED) by (rewrite E; reflexivity).
  split; [exact Hc|]. split; [intros output; rewrite Hc; discriminate|].
  split; [rewrite E; reflexivity|]. split; [rewrite E; reflexivity|].
  unfold Machine.action. fold r'. rewrite Hc. reflexivity.
Qed.

Lemma declined_safety_check_cancels_witness :
  let e := engine_guarded "click" "done" in
  let g := operator ["no"] in
  let r := Machine.steps e LinkedIn.the_handlers 1
             (Machine.start LinkedIn.user_prompt g) in
  Machine.st r = Machine.NEEDS_SAFETY_CHECK [Some "check"] "click"
  /\ snd (LinkedIn.needs_safety_check_handler [Some "check"] "click"
            (Machine.caller r)) = false
  /\ (1 <= 1)%nat
  /\ Machine.st (Machine.steps e LinkedIn.the_handlers (1 + 1)
                   (Machine.start LinkedIn.user_prompt g))
     = Machine.CANCELLED.
Proof.
  intros e g r.
  assert (H1 : Machine.st r
               = Machine.NEEDS_SAFETY_CHECK [Some "check"] "click")
    by reflexivity.
  assert (H2 : snd (LinkedIn.needs_safety_check_handler [Some "check"]
                      "click" (Machine.caller r)) = false)
    by (vm_compute; reflexivity).
  assert (H3 : (1 <= 1)%nat) by lia.
  refine (conj H1 (conj H2 (conj H3 _))).
  exact (proj1 (declined_safety_check_cancels e g 1 [Some "check"] "click"
                  H1 H2 1%nat H3)).
Defined.

(** The same run with an operator who agrees: the operation is executed
    and the run completes. *)
Example acknowledged_safety_check_completes :
  let r := Machine.steps (engine_guarded "click" "done")
             LinkedIn.the_handlers 3
             (Machine.start LinkedIn.user_prompt (operator [" ACK "])) in
  Machine.st r = Machine.COMPLETE (Response (Some "done") None)
  /\ Machine.executed r = ["click"].
Proof. vm_compute. split; reflexivity. Qed.

(* ===================================================================== *)
(** ** Further properties of one unit of work *)
(* ===================================================================== *)

(** X1.  Whatever its arguments and whatever the package does, a unit of
    work calls [start] first, [stop] at most once and as its last call,
    and the action at most once, between the two: its calls are
    [start], or [start; stop], or [start; action; stop]. *)
Theorem calls_of_a_unit_of_work (w : world)
    (month origin destination : string) (n : Z) :
  let d := desktop_of n in
  let tr := fst (run (check_flight_price w month origin destination n)) in
  tr = [Start d] \/ tr = [Start d; Stop d]
  \/ exists input_text, tr = [Start d; Action d input_text; Stop d].
Proof.
  intros d tr. unfold tr.
  destruct (start_result w) as [container|e] eqn:Hs;
    [|rewrite (run_start_raises _ _ _ _ _ _ Hs); left; reflexivity].
  destruct (int month) as [m|e] eqn:Hi;
    [|rewrite (run_month_raises _ _ _ _ _ _ _ Hs Hi); left; reflexivity].
  destruct (get_nth_weekend_dates 2025 m n) as [dates|e] eqn:Hd;
    [|rewrite (run_dates_raise _ _ _ _ _ _ _ _ Hs Hi Hd); left; reflexivity].
  rewrite (check_flight_price_run w month origin destination n container m
             dates Hs Hi Hd).
  cbv zeta. fold d.
  destruct dates as [[friday_date|] [sunday_date|]];
    try (right; left; reflexivity).
  destruct (getitem month_map month); [|right; left; reflexivity].
  right. right. eexists. reflexivity.
Qed.

(** X2.  A unit of work whose desktop has started leaves it running, with
    no call of [stop], exactly when [int(month)] or the computation of
    the dates raises, which both happen before the [try] block: the
    exception then leaves [check_flight_price]. *)
Theorem desktop_left_running (w : world)
    (month origin destination container : string) (n : Z) :
  start_result w = Ok container ->
  let r := run (check_flight_price w month origin destination n) in
  count_stops (fst r) = 0%nat
  <-> (exists e, int month = Raise e /\ snd r = Raise e)
      \/ (exists m e, int month = Ok m
            /\ get_nth_weekend_dates 2025 m n = Raise e /\ snd r = Raise e).
Proof.
  intros Hs r. unfold r.
  destruct (int month) as [m|e] eqn:Hi.
  2:{ rewrite (run_month_raises _ _ _ _ _ _ _ Hs Hi). simpl. split; [|reflexivity].
      intros _. left. exists e. auto. }
  destruct (get_nth_weekend_dates 2025 m n) as [dates|e] eqn:Hd.
  2:{ rewrite (run_dates_raise _ _ _ _ _ _ _ _ Hs Hi Hd). simpl. split; [|reflexivity].
      intros _. right. exists m, e. auto. }
  rewrite (check_flight_price_run w month origin destination n container m
             dates Hs Hi Hd).
  cbv zeta. split.
  - intros H. exfalso.
    destruct dates as [[friday_date|] [sunday_date|]];
      try destruct (getitem month_map month); simpl in H; discriminate H.
  - intros [(e & He & _)|(m' & e & Hm' & He & _)]; [discriminate He|].
    injection Hm' as <-. rewrite Hd in He. discriminate He.
Qed.

Lemma desktop_left_running_witness :
  start_result (world_complete "231") = Ok "container"
  /\ (count_stops
        (fst (run (check_flight_price (world_complete "231") "13"
                                      "Oslo" "Rome" 1))) = 0%nat
      <-> (exists e, int "13" = Raise e
             /\ snd (run (check_flight_price (world_complete "231") "13"
                                             "Oslo" "Rome" 1)) = Raise e)
          \/ (exists m e, int "13" = Ok m
                /\ get_nth_weekend_dates 2025 m 1 = Raise e
                /\ snd (run (check_flight_price (world_complete "231") "13"
                                                "Oslo" "Rome" 1)) = Raise e)).
Proof.
  assert (H1 : start_result (world_complete "231") = Ok "container")
    by reflexivity.
  refine (conj H1 _).
  exact (desktop_left_running (world_complete "231") "13" "Oslo" "Rome"
           "container" 1 H1).
Defined.

(** The month 13 is such a case. *)
Example month_13_leaves_the_desktop_running :
  run (check_flight_price (world_complete "231") "13" "Oslo" "Rome" 1)
  = ([Start (desktop_of 1)],
     Raise (Exn ValueError "month must be in 1..12")).
Proof. vm_compute. reflexivity. Qed.

(** So are a month behind a separator, which [int] does not skip, and a
    month that is no C integer, for which [date] raises
    [OverflowError]. *)
Example months_that_leave_the_desktop_running :
  run (check_flight_price (world_complete "231") (String "028" "3")
                          "Oslo" "Rome" 1)
  = ([Start (desktop_of 1)],
     Raise (Exn ValueError
              "invalid literal for int() with base 10: '\x1c3'"))
  /\ run (check_flight_price (world_complete "231") "99999999999"
                             "Oslo" "Rome" 1)
     = ([Start (desktop_of 1)],
        Raise (Exn OverflowError "signed integer is greater than maximum")).
Proof. vm_compute. split; reflexivity. Qed.

(** X3.  The action is run only for a weekend that lies within the
    month: it is called exactly when the desktop has started, the dates
    of the weekend were found, both of them, and the month is a key of
    [month_map]. *)
Theorem action_only_for_a_weekend_of_the_month (w : world)
    (month origin destination : string) (n : Z) :
  (exists input_text,
     In (Action (desktop_of n) input_text)
        (fst (run (check_flight_price w month origin destination n))))
  <-> exists container m friday_date sunday_date month_name,
        start_result w = Ok container
        /\ int month = Ok m
        /\ get_nth_weekend_dates 2025 m n
           = Ok (Some friday_date, Some sunday_date)
        /\ month_map !! month = Some month_name.
Proof.
  split.
  - intros [input_text Hin].
    destruct (start_result w) as [container|e] eqn:Hs.
    2:{ rewrite (run_start_raises _ _ _ _ _ _ Hs) in Hin. simpl in Hin.
        destruct Hin as [H|[]]; discriminate H. }
    destruct (int month) as [m|e] eqn:Hi.
    2:{ rewrite (run_month_raises _ _ _ _ _ _ _ Hs Hi) in Hin. simpl in Hin.
        destruct Hin as [H|[]]; discriminate H. }
    destruct (get_nth_weekend_dates 2025 m n) as [dates|e] eqn:Hd.
    2:{ rewrite (run_dates_raise _ _ _ _ _ _ _ _ Hs Hi Hd) in Hin. simpl in Hin.
        destruct Hin as [H|[]]; discriminate H. }
    rewrite (check_flight_price_run w month origin destination n container m
               dates Hs Hi Hd) in Hin.
    cbv zeta in Hin. unfold getitem in Hin.
    destruct dates as [[friday_date|] [sunday_date|]];
      try (simpl in Hin; destruct Hin as [H|[H|[]]]; discriminate H).
    destruct (month_map !! month) as [month_name|] eqn:Hm.
    + exists container, m, friday_date, sunday_date, month_name. auto.
    + simpl in Hin. destruct Hin as [H|[H|[]]]; discriminate H.
  - intros (container & m & fd & sd & month_name & Hs & Hi & Hd & Hm).
    rewrite (check_flight_price_run w month origin destination n container m
               _ Hs Hi Hd).
    cbv zeta. unfold getitem. rewrite Hm. eexists. simpl. right. left.
    reflexivity.
Qed.

(* ===================================================================== *)
(** ** Further properties of the weekend dates *)
(* ===================================================================== *)

Lemma days_in_month_bounds (y m : Z) :
  1 <= m <= 12 -> 28 <= days_in_month y m <= 31.
Proof.
  intros Hm. unfold days_in_month, index.
  months m H; destruct (is_leap y); simpl; lia.
Qed.

(** What [get_nth_weekend_dates] does after the first day of the month
    was built: with [o] the ordinal of the n-th Friday, it raises
    [OverflowError], or compares the months of the days [o] and
    [o + 2]. *)
Lemma get_nth_weekend_dates_cases (y m n : Z) :
  1 <= y <= 9999 -> 1 <= m <= 12 ->
  let o := ymd2ord y m 1 + (4 - weekday (Date y m 1)) mod 7 + 7 * (n - 1) in
  (exists msg,
     get_nth_weekend_dates y m n = Raise (Exn OverflowError msg))
  \/ (0 < o /\ o + 2 <= MAXORDINAL
      /\ get_nth_weekend_dates y m n
         = if negb (month (ord2ymd o) =? m)
              || negb (month (ord2ymd (o + 2)) =? m)
           then Ok (None, None)
           else Ok (Some (day (ord2ymd o)), Some (day (ord2ymd (o + 2))))).
Proof.
  intros Hy Hm o. unfold get_nth_weekend_dates.
  rewrite mk_date_first, bind_ok by assumption.
  set (k := (4 - weekday (Date y m 1)) mod 7 + 7 * (n - 1)).
  destruct (timedelta_inv k _ eq_refl) as [->|[msg ->]];
    [rewrite bind_ok|left; exists msg; reflexivity].
  destruct (date_add_inv (Date y m 1) k _ eq_refl) as [[-> Ho]|[msg ->]];
    [rewrite bind_ok|left; exists msg; reflexivity].
  change (toordinal (Date y m 1)) with (ymd2ord y m 1) in *.
  replace (ymd2ord y m 1 + k) with o in * by (unfold o, k; lia).
  rewrite (timedelta_ok 2), bind_ok by (simpl; lia).
  destruct (ord2ymd_sound o ltac:(lia)) as [_ Hord].
  destruct (date_add_inv (ord2ymd o) 2 _ eq_refl) as [[-> Ho2]|[msg ->]];
    [rewrite bind_ok|left; exists msg; reflexivity].
  rewrite Hord in *. right. repeat split; try lia.
Qed.

(** X4.  Whatever the year, the month and [n], also outside the ranges
    that the callers use, a result of [get_nth_weekend_dates] is
    [(None, None)] or a pair [(f, f + 2)] of days of one month of some
    year, the first a Friday and the second a Sunday: never one date
    without the other, and never two days that are no weekend. *)
Theorem result_is_a_weekend_or_nothing (y m n : Z)
    (dates : option Z * option Z) :
  get_nth_weekend_dates y m n = Ok dates ->
  dates = (None, None)
  \/ exists y' f,
       dates = (Some f, Some (f + 2))
       /\ 1 <= f /\ f + 2 <= days_in_month y' m
       /\ weekday (Date y' m f) = 4 /\ weekday (Date y' m (f + 2)) = 6.
Proof.
  intros H.
  assert (Hr : 1 <= y <= 9999 /\ 1 <= m <= 12).
  { unfold get_nth_weekend_dates in H.
    destruct (mk_date y m 1) as [x|e] eqn:E; [|discriminate H].
    apply mk_date_ok_inv in E. tauto. }
  destruct Hr as [Hy Hm].
  destruct (get_nth_weekend_dates_cases y m n Hy Hm)
    as [[msg E]|(Ho & Ho2 & E)]; [congruence|].
  rewrite E in H. clear E.
  set (o := ymd2ord y m 1 + (4 - weekday (Date y m 1)) mod 7 + 7 * (n - 1))
    in *.
  destruct (ord2ymd_sound o ltac:(lia)) as [[_ VF] OF].
  destruct (ord2ymd_sound (o + 2) ltac:(lia)) as [[_ VS] OS].
  destruct (ord2ymd o) as [yF mF f]. destruct (ord2ymd (o + 2)) as [yS mS s].
  unfold toordinal in OF, OS. simpl in *.
  destruct (Z.eqb_spec mF m) as [->|]; simpl in H;
    [|injection H as <-; left; reflexivity].
  destruct (Z.eqb_spec mS m) as [->|]; simpl in H;
    [|injection H as <-; left; reflexivity].
  injection H as <-. right.
  assert (Hdim : forall yy, 28 <= days_in_month yy m <= 31).
  { intros yy. unfold days_in_month, index.
    months m Hc; destruct (is_leap yy); simpl; lia. }
  pose proof (Hdim yF). pose proof (Hdim yS).
  assert (yF = yS) as <-.
  { pose proof (year_length yF). pose proof (year_length yS).
    pose proof (day_of_year_bounds yF m f Hm VF).
    pose proof (day_of_year_bounds yS m s Hm VS).
    assert (D : days_before_month yS m - days_before_month yF m
                >= - (if is_leap yF then 1 else 0)
                /\ days_before_month yF m - days_before_month yS m
                   >= - (if is_leap yS then 1 else 0)).
    { unfold days_before_month.
      destruct (2 <? m), (is_leap yF), (is_leap yS); simpl; lia. }
    assert (D0 : 0 <= days_before_month yF m /\ 0 <= days_before_month yS m).
    { unfold days_before_month, index.
      months m Hc; destruct (is_leap yF), (is_leap yS); simpl; lia. }
    unfold ymd2ord in OF, OS.
    destruct (Z.lt_trichotomy yF yS) as [L|[L|L]]; [|exact L|].
    - pose proof (days_before_year_mono (yF + 1) yS ltac:(lia)). lia.
    - pose proof (days_before_year_mono (yS + 1) yF ltac:(lia)). lia. }
  assert (s = f + 2) as -> by (unfold ymd2ord in OF, OS; lia).
  exists yF, f. split; [reflexivity|]. split; [lia|]. split; [lia|].
  unfold weekday, toordinal. simpl. rewrite OS, OF.
  unfold o, weekday, toordinal. simpl.
  split; Z.div_mod_to_equations; lia.
Qed.

Lemma result_is_a_weekend_or_nothing_witness :
  get_nth_weekend_dates 2025 1 53 = Ok (Some 2, Some 4)
  /\ ((Some 2, Some 4) = (None, None)
      \/ exists y' f,
           (Some 2, Some 4) = (Some f, Some (f + 2))
           /\ 1 <= f /\ f + 2 <= days_in_month y' 1
           /\ weekday (Date y' 1 f) = 4 /\ weekday (Date y' 1 (f + 2)) = 6).
Proof.
  assert (H1 : get_nth_weekend_dates 2025 1 53 = Ok (Some 2, Some 4))
    by (vm_compute; reflexivity).
  refine (conj H1 _).
  exact (result_is_a_weekend_or_nothing 2025 1 53 (Some 2, Some 4) H1).
Defined.

(** X5.  [get_nth_weekend_dates] raises [ValueError] exactly when the
    year and the month are C integers and the year is not one of 1 to
    9999 or the month not one of 1 to 12, whatever [n]; for a year or a
    month that is no C integer it raises [OverflowError]; and it raises
    no exception of another class. *)
Theorem value_error_for_a_bad_year_or_month (y m n : Z) :
  ((exists msg, get_nth_weekend_dates y m n = Raise (Exn ValueError msg))
   <-> (INT_MIN <= y <= INT_MAX /\ INT_MIN <= m <= INT_MAX)
       /\ ~ (1 <= y <= 9999 /\ 1 <= m <= 12))
  /\ (~ (INT_MIN <= y <= INT_MAX /\ INT_MIN <= m <= INT_MAX) ->
      exists msg, get_nth_weekend_dates y m n = Raise (Exn OverflowError msg))
  /\ (forall e, get_nth_weekend_dates y m n = Raise e ->
        exn_cls e = ValueError \/ exn_cls e = OverflowError).
Proof.
  split; [|split; [|intros e; apply dates_exception]].
  - unfold get_nth_weekend_dates.
    destruct (mk_date_cases y m 1)
      as [(Hc & msg & ->)|[(Hc & Hv & msg & ->)|(Hc & Hv & ->)]].
    + split; [intros [msg' E]; discriminate E|].
      intros [[Hy Hm] _]. destruct Hc. unfold INT_MIN, INT_MAX in *. lia.
    + split; [|eauto]. intros _. split; [tauto|].
      intros [Hy Hm]. apply Hv.
      pose proof (days_in_month_bounds y m Hm). lia.
    + rewrite bind_ok. split.
      * intros [msg E]. apply dates_after_first_day in E. discriminate E.
      * tauto.
  - intros Hc. unfold get_nth_weekend_dates.
    destruct (mk_date_cases y m 1)
      as [(_ & msg & ->)|[(Hc' & _)|(Hc' & _)]]; [eauto|tauto|tauto].
Qed.

(** A year beyond the C integers is an [OverflowError], not a
    [ValueError]. *)
Example year_beyond_the_c_integers :
  get_nth_weekend_dates (2 ^ 31) 1 1
  = Raise (Exn OverflowError "signed integer is greater than maximum")
  /\ get_nth_weekend_dates 10000 1 1
     = Raise (Exn ValueError "year 10000 is out of range")
  /\ get_nth_weekend_dates 2025 13 1
     = Raise (Exn ValueError "month must be in 1..12").
Proof. vm_compute. repeat split. Qed.

Lemma ymd2ord_below_max (y m d : Z) :
  1 <= y <= 9999 -> 1 <= m <= 12 -> 1 <= d <= days_in_month y m ->
  ymd2ord y m d <= MAXORDINAL.
Proof.
  intros Hy Hm Hd. pose proof (ymd2ord_bounds y m d Hm Hd).
  pose proof (days_before_year_mono (y + 1) 10000 ltac:(lia)) as B.
  change (days_before_year 10000) with MAXORDINAL in B. lia.
Qed.

(** X6.  Every month of every year from 1 to 9999 has its first three
    weekends: for [n] from 1 to 3 the result is the pair [(f, f + 2)] of
    the n-th Friday and its Sunday, and [f + 2] is at most 23. *)
Theorem first_three_weekends_exist (y m n : Z) :
  1 <= y <= 9999 -> 1 <= m <= 12 -> 1 <= n <= 3 ->
  get_nth_weekend_dates y m n
  = Ok (Some (nth_friday y m n), Some (nth_friday y m n + 2))
  /\ nth_friday y m n + 2 <= 23.
Proof.
  intros Hy Hm Hn.
  pose proof (first_friday_bounds y m) as Hf.
  pose proof (days_in_month_bounds y m Hm) as Hd.
  assert (Hb : nth_friday y m n + 2 <= 23) by (unfold nth_friday; lia).
  split; [|exact Hb].
  rewrite weekend_dates; try lia.
  - replace ((nth_friday y m n <=? days_in_month y m)
             && (nth_friday y m n + 2 <=? days_in_month y m)) with true
      by (unfold nth_friday in *; lia).
    reflexivity.
  - apply ymd2ord_below_max; try assumption. unfold nth_friday in *. lia.
Qed.

Lemma first_three_weekends_exist_witness :
  1 <= 2025 <= 9999 /\ 1 <= 2 <= 12 /\ 1 <= 3 <= 3
  /\ get_nth_weekend_dates 2025 2 3
     = Ok (Some (nth_friday 2025 2 3), Some (nth_friday 2025 2 3 + 2))
  /\ nth_friday 2025 2 3 + 2 <= 23.
Proof.
  assert (H1 : 1 <= 2025 <= 9999) by lia.
  assert (H2 : 1 <= 2 <= 12) by lia.
  assert (H3 : 1 <= 3 <= 3) by lia.
  refine (conj H1 (conj H2 (conj H3 _))).
  exact (first_three_weekends_exist 2025 2 3 H1 H2 H3).
Defined.

(** X7.  Up to the year 9998, a month has a fifth weekend exactly when
    it has 31 days and begins on a Friday, and that weekend is the 29th to
    the 31st; no month has a sixth weekend or a later one. *)
Theorem fifth_weekend_is_rare (y m : Z) :
  1 <= y <= 9998 -> 1 <= m <= 12 ->
  get_nth_weekend_dates y m 5
  = Ok (if (days_in_month y m =? 31) && (weekday (Date y m 1) =? 4)
        then (Some 29, Some 31)
        else (None, None))
  /\ forall n, 6 <= n <= 52 -> get_nth_weekend_dates y m n = Ok (None, None).
Proof.
  intros Hy Hm.
  pose proof (first_friday_bounds y m) as Hf.
  pose proof (days_in_month_bounds y m Hm) as Hd.
  assert (Hmax : forall n, 1 <= n <= 52 ->
                 ymd2ord y m (nth_friday y m n + 2) <= MAXORDINAL).
  { intros n Hn.
    pose proof (ymd2ord_bounds y m 1 Hm ltac:(lia)) as B.
    pose proof (days_before_year_mono (y + 1) 9999 ltac:(lia)) as B1.
    change (days_before_year 9999) with 3651694 in B1.
    unfold nth_friday, ymd2ord, MAXORDINAL in *. lia. }
  split.
  - rewrite weekend_dates by (try apply Hmax; lia).
    pose proof (first_friday_offset y m) as Ho.
    assert (Hw : 0 <= weekday (Date y m 1) < 7)
      by (apply Z.mod_pos_bound; lia).
    assert (Hff : first_friday y m = 1 <-> weekday (Date y m 1) = 4).
    { rewrite Ho. split; intros E.
      - revert E. Z.div_mod_to_equations. lia.
      - rewrite E. reflexivity. }
    unfold nth_friday.
    destruct (Z.eqb_spec (days_in_month y m) 31) as [E31|E31];
      destruct (Z.eqb_spec (weekday (Date y m 1)) 4) as [E4|E4]; simpl.
    + apply Hff in E4. rewrite E4, E31. reflexivity.
    + replace ((first_friday y m + 7 * (5 - 1) <=? days_in_month y m)
               && (first_friday y m + 7 * (5 - 1) + 2 <=? days_in_month y m))
        with false; [reflexivity|].
      assert (first_friday y m <> 1) by tauto. lia.
    + replace ((first_friday y m + 7 * (5 - 1) <=? days_in_month y m)
               && (first_friday y m + 7 * (5 - 1) + 2 <=? days_in_month y m))
        with false by lia. reflexivity.
    + replace ((first_friday y m + 7 * (5 - 1) <=? days_in_month y m)
               && (first_friday y m + 7 * (5 - 1) + 2 <=? days_in_month y m))
        with false by lia. reflexivity.
  - intros n Hn. rewrite weekend_dates by (try apply Hmax; lia).
    replace ((nth_friday y m n <=? days_in_month y m)
             && (nth_friday y m n + 2 <=? days_in_month y m)) with false
      by (unfold nth_friday; lia).
    reflexivity.
Qed.

Lemma fifth_weekend_is_rare_witness :
  1 <= 2025 <= 9998 /\ 1 <= 8 <= 12
  /\ get_nth_weekend_dates 2025 8 5
     = Ok (if (days_in_month 2025 8 =? 31) && (weekday (Date 2025 8 1) =? 4)
           then (Some 29, Some 31)
           else (None, None))
  /\ forall n, 6 <= n <= 52 -> get_nth_weekend_dates 2025 8 n = Ok (None, None).
Proof.
  assert (H1 : 1 <= 2025 <= 9998) by lia.
  assert (H2 : 1 <= 8 <= 12) by lia.
  refine (conj H1 (conj H2 _)).
  exact (fifth_weekend_is_rare 2025 8 H1 H2).
Defined.

(* ===================================================================== *)
(** ** Further properties of the desktops *)
(* ===================================================================== *)

(** X8.  Different weekend numbers give different container names, and
    the four ports of one desktop are four different ports. *)
Theorem desktops_do_not_clash (i j : Z) :
  (name (desktop_of i) = name (desktop_of j) -> i = j)
  /\ List.NoDup (ports (desktop_of i)).
Proof.
  split.
  - unfold desktop_of, str_int. simpl. intros E.
    apply (inj (String.app "spongecake_weekend_flight_")) in E.
    apply (inj pretty) in E. exact E.
  - unfold ports, desktop_of. simpl.
    repeat constructor; simpl; lia.
Qed.

(* ===================================================================== *)
(** ** Further properties of [main] *)
(* ===================================================================== *)

Lemma month_map_has_keys (month : string) :
  In month ["1"; "2"; "3"; "4"; "5"; "6"; "7"; "8"; "9"; "10"; "11"; "12"] ->
  is_Some (month_map !! month).
Proof.
  simpl. intros H.
  repeat (destruct H as [<-|H]; [vm_compute; eauto|]). destruct H.
Qed.

(** X9.  [main] goes on to the checks exactly when the third line,
    without the white space around it, is one of the twelve keys 1 to 12
    of [month_map]; for any other line, such as 03 with its zero or a
    month name, it raises [KeyError] with the [repr] of that line before
    any unit of work is submitted.  With a key, [main] returns exactly
    when no unit of work raises an exception that is no [Exception]. *)
Theorem main_needs_a_month_number (line1 line2 line3 : string)
    (worlds : Z -> world) (completion : list Z) :
  let keys :=
    ["1"; "2"; "3"; "4"; "5"; "6"; "7"; "8"; "9"; "10"; "11"; "12"] in
  let futures :=
    List.map
      (fun weekend =>
         (weekend,
          future worlds (strip line3) (strip line1) (strip line2) weekend))
      completion in
  (~ In (strip line3) keys ->
   main line1 line2 line3 worlds completion
   = Raise (Exn KeyError (repr (strip line3))))
  /\ (In (strip line3) keys ->
      main line1 line2 line3 worlds completion = collect_all futures)
  /\ ((exists s, main line1 line2 line3 worlds completion = Ok s) ->
      In (strip line3) keys)
  /\ (In (strip line3) keys -> Permutation completion weekends ->
      ((exists s, main line1 line2 line3 worlds completion = Ok s)
       <-> forall w, In w weekends ->
             caught (future worlds (strip line3) (strip line1)
                            (strip line2) w))).
Proof.
  intros keys futures. split; [|split; [|split]].
  - intros Hn. unfold main, getitem.
    destruct (month_map !! strip line3) as [v|] eqn:E; [|reflexivity].
    destruct Hn. apply month_map_keys. eauto.
  - intros Hin. apply main_returns, month_map_has_keys, Hin.
  - intros [s Hs]. apply month_map_keys. exact (main_month _ _ _ _ _ _ Hs).
  - intros Hin Hp. rewrite (main_returns_iff _ _ _ _ _ Hp). split.
    + intros [_ H]. exact H.
    + intros H. split; [apply month_map_has_keys, Hin|exact H].
Qed.

Example main_rejects_a_padded_month :
  main "Oslo" "Rome" " 03 " (fun _ => world_complete "231") weekends
  = Raise (Exn KeyError "'03'")
  /\ main "Oslo" "Rome" "May's" (fun _ => world_complete "231") weekends
     = Raise (Exn KeyError (String "034" "May's" ++ String "034" "")).
Proof. vm_compute. split; reflexivity. Qed.

(** A unit of work of [main] for one of the first three weekends returns
    a text or raises. *)
Lemma future_first_three (worlds : Z -> world)
    (month origin destination : string) (w : Z) :
  is_Some (month_map !! month) -> 1 <= w <= 3 ->
  future worlds month origin destination w <> Ok None.
Proof.
  intros Hmonth Hw. unfold future.
  destruct (start_result (worlds w)) as [container|e] eqn:Hs;
    [|rewrite (run_start_raises _ _ _ _ _ _ Hs); discriminate].
  destruct (int_month month Hmonth) as (m & Hi & Hm).
  pose proof (first_friday_bounds 2025 m) as Hf.
  pose proof (days_in_month_bounds 2025 m Hm) as Hd.
  assert (Hdates : get_nth_weekend_dates 2025 m w
                   = Ok (Some (nth_friday 2025 m w),
                         Some (nth_friday 2025 m w + 2))).
  { rewrite weekend_dates; try lia.
    - replace ((nth_friday 2025 m w <=? days_in_month 2025 m)
               && (nth_friday 2025 m w + 2 <=? days_in_month 2025 m))
        with true by (unfold nth_friday in *; lia).
      reflexivity.
    - apply ymd2ord_below_max; try lia. unfold nth_friday in *. lia. }
  rewrite (check_flight_price_run _ _ _ _ _ _ _ _ Hs Hi Hdates). cbv zeta.
  destruct (getitem month_map month);
    [destruct (action_result (worlds w)) as [answer|e];
     [|destruct (is_Exception e)]|];
    destruct (stop_result (worlds w)); discriminate.
Qed.

(** X10.  After [main], the mapping has an entry for each of the
    weekends 1, 2 and 3, whatever the month and whatever happens in the
    units of work; and it has entries for submitted weekends only. *)
Theorem first_three_weekends_have_entries (line1 line2 line3 : string)
    (worlds : Z -> world) (completion : list Z) (s : summary) :
  Permutation completion weekends ->
  main line1 line2 line3 worlds completion = Ok s ->
  (forall w, 1 <= w <= 3 -> is_Some (results s !! w))
  /\ (forall w, is_Some (results s !! w) -> In w weekends).
Proof.
  intros Hp Hmain. pose proof (main_month _ _ _ _ _ _ Hmain) as Hmonth.
  split.
  - intros w Hw.
    rewrite (main_results _ _ _ _ _ _ w Hp Hmain) by (simpl; lia).
    pose proof (future_first_three worlds (strip line3) (strip line1)
                  (strip line2) w Hmonth Hw) as Hf.
    assert (Hc : caught (future worlds (strip line3) (strip line1)
                                (strip line2) w)).
    { apply (proj1 (main_returns_iff line1 line2 line3 worlds completion Hp)
               (ex_intro _ s Hmain)). simpl. lia. }
    destruct (future _ _ _ _ w) as [[text|]|e]; simpl; eauto.
    + destruct (Hf eq_refl).
    + rewrite (Hc e eq_refl). eauto.
  - intros w Hsome.
    destruct (in_dec Z.eq_dec w weekends) as [Hin|Hout]; [exact Hin|].
    exfalso. rewrite (main_results_outside _ _ _ _ _ _ w Hp Hmain Hout) in Hsome.
    destruct Hsome as [? H]. discriminate H.
Qed.

Lemma first_three_weekends_have_entries_witness :
  let worlds := fun _ : Z => world_fault "boom" in
  exists s,
    Permutation weekends weekends
    /\ main "Oslo" "Rome" "2" worlds weekends = Ok s
    /\ (forall w, 1 <= w <= 3 -> is_Some (results s !! w))
    /\ (forall w, is_Some (results s !! w) -> In w weekends).
Proof.
  intros worlds.
  assert (H1 : Permutation weekends weekends) by apply Permutation_refl.
  eexists.
  assert (H2 : main "Oslo" "Rome" "2" worlds weekends = Ok _)
    by (vm_compute; reflexivity).
  refine (conj H1 (conj H2 _)).
  exact (first_three_weekends_have_entries "Oslo" "Rome" "2" worlds
           weekends _ H1 H2).
Defined.

(** The cheapest price is the same for two lists of completed futures
    with the same members. *)
Lemma cheapest_same_members (cs1 cs2 : list (Z * result (option string)))
    (s1 s2 : summary) :
  (forall c, In c cs1 <-> In c cs2) ->
  collect_all cs1 = Ok s1 -> collect_all cs2 = Ok s2 ->
  cheapest_weekend s1 = cheapest_weekend s2.
Proof.
  intros Hsame H1 H2.
  assert (Hp : forall v, priced cs1 v <-> priced cs2 v).
  { intros v. unfold priced. split; intros (w & t & Hin & H);
      exists w, t; (split; [apply Hsame, Hin|exact H]). }
  pose proof (fun v => cheapest_fold_lower_bound cs1 _ _ v H1) as L1.
  pose proof (fun v => cheapest_fold_lower_bound cs2 _ _ v H2) as L2.
  destruct (cheapest_fold_attained cs1 _ _ H1) as [E1|P1];
    destruct (cheapest_fold_attained cs2 _ _ H2) as [E2|P2];
    simpl in *.
  - congruence.
  - rewrite E1. symmetry. apply float_not_below_inf.
    + destruct P2 as (_ & _ & _ & _ & Hn). exact Hn.
    + rewrite <- E1. apply L1, Hp, P2.
  - rewrite E2. apply float_not_below_inf.
    + destruct P1 as (_ & _ & _ & _ & Hn). exact Hn.
    + rewrite <- E2. apply L2, Hp, P1.
  - apply float_lt_antisym.
    + destruct P1 as (_ & _ & _ & _ & Hn). exact Hn.
    + destruct P2 as (_ & _ & _ & _ & Hn). exact Hn.
    + apply L2, Hp, P1.
    + apply L1, Hp, P2.
Qed.

(** When [main] returns for one order of completion, it returns the same
    for another. *)
Lemma main_other_order (line1 line2 line3 : string) (worlds : Z -> world)
    (completion1 completion2 : list Z) (s : summary) :
  Permutation completion1 weekends -> Permutation completion2 weekends ->
  main line1 line2 line3 worlds completion1 = Ok s ->
  main line1 line2 line3 worlds completion2 = Ok s.
Proof.
  intros Hp1 Hp2 M1.
  destruct (proj1 (main_returns_iff _ _ _ _ _ Hp1) (ex_intro _ s M1))
    as [Hmonth Hc].
  destruct (proj2 (main_returns_iff line1 line2 line3 worlds completion2
                     Hp2) (conj Hmonth Hc)) as [s2 M2].
  rewrite M2. f_equal.
  assert (E : forall a b : summary,
             results a = results b ->
             cheapest_weekend a = cheapest_weekend b -> a = b).
  { intros [ra ca] [rb cb]; simpl; intros -> ->. reflexivity. }
  apply E.
  - apply map_eq. intros w.
    destruct (in_dec Z.eq_dec w weekends) as [Hin|Hout].
    + rewrite (main_results _ _ _ _ _ _ w Hp1 M1 Hin).
      rewrite (main_results _ _ _ _ _ _ w Hp2 M2 Hin). reflexivity.
    + rewrite (main_results_outside _ _ _ _ _ _ w Hp1 M1 Hout).
      rewrite (main_results_outside _ _ _ _ _ _ w Hp2 M2 Hout). reflexivity.
  - refine (cheapest_same_members _ _ _ _ _ (main_loop _ _ _ _ _ _ M2)
              (main_loop _ _ _ _ _ _ M1)).
    assert (Hperm : Permutation completion2 completion1)
      by (apply (Permutation_trans Hp2), Permutation_sym, Hp1).
    intros c. split; apply Permutation_in, Permutation_map;
      [exact Hperm|apply Permutation_sym, Hperm].
Qed.

(** X11.  Whether [main] returns, and what it returns, does not depend
    on the order in which the futures complete: for two orders of
    completion it returns for both or for none, and then with the same
    mapping and the same cheapest price. *)
Theorem summary_independent_of_completion_order
    (line1 line2 line3 : string) (worlds : Z -> world)
    (completion1 completion2 : list Z) :
  Permutation completion1 weekends -> Permutation completion2 weekends ->
  forall s,
    main line1 line2 line3 worlds completion1 = Ok s
    <-> main line1 line2 line3 worlds completion2 = Ok s.
Proof.
  intros Hp1 Hp2 s. split; apply main_other_order; assumption.
Qed.

Lemma summary_independent_of_completion_order_witness :
  let worlds := fun w : Z => world_complete (str_int (200 + w)) in
  exists s,
    Permutation [2; 1; 3; 4; 5] weekends /\ Permutation weekends weekends
    /\ main "Oslo" "Rome" "8" worlds weekends = Ok s
    /\ main "Oslo" "Rome" "8" worlds [2; 1; 3; 4; 5] = Ok s.
Proof.
  intros worlds.
  assert (H1 : Permutation [2; 1; 3; 4; 5] weekends) by apply perm_swap.
  assert (H2 : Permutation weekends weekends) by apply Permutation_refl.
  eexists.
  assert (H3 : main "Oslo" "Rome" "8" worlds weekends = Ok _)
    by (vm_compute; reflexivity).
  refine (conj H1 (conj H2 (conj H3 _))).
  exact (proj2 (summary_independent_of_completion_order "Oslo" "Rome" "8"
                  worlds [2; 1; 3; 4; 5] weekends H1 H2 _) H3).
Defined.

(** The exception that leaves [main] does depend on the order: of two
    units of work that raise exceptions that are no [Exception]s, the one
    that completes first decides. *)
Example completion_order_decides_the_exception :
  let worlds := fun w : Z =>
    if w =? 1 then world_exit "1"
    else if w =? 2 then world_exit "2"
    else world_complete "231" in
  main "Oslo" "Rome" "8" worlds [1; 2; 3; 4; 5] = Raise (Exn SystemExit "1")
  /\ main "Oslo" "Rome" "8" worlds [2; 1; 3; 4; 5]
     = Raise (Exn SystemExit "2").
Proof. vm_compute. split; reflexivity. Qed.

(** A text returned by a unit of work is the output of a completed action
    or a failure text, which is no number. *)
Lemma future_text_origin (worlds : Z -> world)
    (month origin destination : string) (w : Z) (text : string) :
  future worlds month origin destination w = Ok (Some text) ->
  (exists data,
     action_result (worlds w) = Ok (COMPLETE, data)
     /\ output_text data = Some text)
  \/ float_of_string text = None.
Proof.
  unfold future. intros H.
  destruct (start_result (worlds w)) as [container|e] eqn:Hs;
    [|rewrite (run_start_raises _ _ _ _ _ _ Hs) in H; discriminate H].
  destruct (int month) as [m|e] eqn:Hi;
    [|rewrite (run_month_raises _ _ _ _ _ _ _ Hs Hi) in H; discriminate H].
  destruct (get_nth_weekend_dates 2025 m w) as [dates|e] eqn:Hd;
    [|rewrite (run_dates_raise _ _ _ _ _ _ _ _ Hs Hi Hd) in H;
      discriminate H].
  rewrite (check_flight_price_run _ _ _ _ _ _ _ _ Hs Hi Hd) in H.
  cbv zeta in H.
  destruct dates as [[friday_date|] [sunday_date|]]; simpl in H;
    try (destruct (stop_result (worlds w)); discriminate H).
  destruct (stop_result (worlds w)) as [[]|]; simpl in H;
    [|destruct (getitem month_map month); discriminate H].
  destruct (getitem month_map month) as [month_name|e]; simpl in H;
    [|injection H as <-; right; apply failure_texts_not_numeric].
  destruct (action_result (worlds w)) as [[status data]|e];
    [|destruct (is_Exception e); [|discriminate H]; injection H as <-;
      right; apply failure_texts_not_numeric].
  injection H as <-.
  destruct status; try (right; apply failure_texts_not_numeric).
  destruct (output_text data) as [t|] eqn:Ht.
  - left. exists data. auto.
  - right. apply (float_of_string_marked "E"). auto.
Qed.

(** X12.  When [main] ends with a cheapest price other than the initial
    infinity, that price is the output of a unit of work whose action came
    back with [COMPLETE]: the texts of failed, unrecognised or faulty
    units of work never set the price. *)
Theorem cheapest_price_comes_from_a_completed_action
    (line1 line2 line3 : string) (worlds : Z -> world)
    (completion : list Z) (s : summary) :
  Permutation completion weekends ->
  main line1 line2 line3 worlds completion = Ok s ->
  cheapest_weekend s <> inf ->
  exists w data text,
    In w weekends
    /\ action_result (worlds w) = Ok (COMPLETE, data)
    /\ output_text data = Some text
    /\ float_of_string text = Some (cheapest_weekend s).
Proof.
  intros Hp Hmain Hne. apply main_loop in Hmain.
  destruct (cheapest_fold_attained _ _ _ Hmain)
    as [E|(w & text & Hin & Hf & _)].
  - destruct (Hne E).
  - apply in_map_iff in Hin as (w' & E & Hw). injection E as -> Hfut.
    destruct (future_text_origin _ _ _ _ _ _ Hfut) as [(data & Ha & Ho)|Hnone].
    + exists w, data, text. repeat split; try assumption.
      apply (Permutation_in _ Hp), Hw.
    + rewrite Hnone in Hf. discriminate Hf.
Qed.

Lemma cheapest_price_comes_from_a_completed_action_witness :
  let worlds := fun w : Z =>
    if w =? 2 then world_complete "189" else world_status ERROR in
  exists s,
    Permutation weekends weekends
    /\ main "Oslo" "Rome" "3" worlds weekends = Ok s
    /\ cheapest_weekend s <> inf
    /\ exists w data text,
         In w weekends
         /\ action_result (worlds w) = Ok (COMPLETE, data)
         /\ output_text data = Some text
         /\ float_of_string text = Some (cheapest_weekend s).
Proof.
  intros worlds.
  assert (H1 : Permutation weekends weekends) by apply Permutation_refl.
  eexists.
  assert (H2 : main "Oslo" "Rome" "3" worlds weekends = Ok _)
    by (vm_compute; reflexivity).
  match type of H2 with
  | _ = Ok ?s =>
      assert (H3 : cheapest_weekend s <> inf) by (vm_compute; discriminate)
  end.
  refine (conj H1 (conj H2 (conj H3 _))).
  exact (cheapest_price_comes_from_a_completed_action "Oslo" "Rome" "3"
           worlds weekends _ H1 H2 H3).
Defined.

(** The dates of the five weekends of the months of 2025: the fourth
    weekend is missing in February, the fifth in every month but
    August. *)
Lemma dates_2025_table (m n : Z) :
  1 <= m <= 12 -> In n weekends ->
  get_nth_weekend_dates 2025 m n
  = Ok (if ((n =? 5) && negb (m =? 8)) || ((n =? 4) && (m =? 2))
        then (None, None)
        else (Some (nth_friday 2025 m n), Some (nth_friday 2025 m n + 2))).
Proof.
  intros Hm Hn. simpl in Hn.
  months m H; repeat (destruct Hn as [<-|Hn]; [vm_compute; reflexivity|]);
    destruct Hn.
Qed.

(** X13.  Of the units of work that [main] submits, with a desktop that
    starts and stops, those that return [None], and so leave no entry, are
    the fifth weekend of every month but August and the fourth weekend of
    February: the weekends that the months of 2025 do not have. *)
Theorem skipped_weekends_of_2025 (w : world)
    (month origin destination container : string) (n : Z) :
  is_Some (month_map !! month) -> In n weekends ->
  start_result w = Ok container -> stop_result w = Ok tt ->
  snd (run (check_flight_price w month origin destination n)) = Ok None
  <-> (n = 5 /\ month <> "8") \/ (n = 4 /\ month = "2").
Proof.
  intros Hmonth Hn Hs Hstop.
  destruct (int_month month Hmonth) as (m & Hi & Hm).
  assert (Hkey : (m =? 8) = bool_decide (month = "8")
                 /\ (m =? 2) = bool_decide (month = "2")).
  { apply month_map_keys in Hmonth. simpl in Hmonth.
    repeat (destruct Hmonth as [<-|Hmonth];
            [vm_compute in Hi; injection Hi as <-; split; reflexivity|]).
    destruct Hmonth. }
  destruct Hkey as [Hk8 Hk2].
  rewrite (check_flight_price_run _ _ _ _ _ _ _ _ Hs Hi
             (dates_2025_table m n Hm Hn)).
  cbv zeta. rewrite Hk8, Hk2, Hstop.
  assert (Hn' : n = 1 \/ n = 2 \/ n = 3 \/ n = 4 \/ n = 5)
    by (simpl in Hn; lia).
  destruct (bool_decide_reflect (month = "8")) as [E8|E8];
    destruct (bool_decide_reflect (month = "2")) as [E2|E2];
    try (exfalso; congruence);
    destruct Hn' as [->|[->|[->|[->| ->]]]]; simpl;
    try (destruct (getitem month_map month);
         [destruct (action_result w) as [answer|e0];
          [|destruct (is_Exception e0)]|]); simpl;
    (split;
     [intros H; first [discriminate H
                      | left; split; [reflexivity|assumption]
                      | right; split; [reflexivity|assumption]]
     |intros [[Hn5 Hm8]|[Hn4 Hm2]];
      first [reflexivity | discriminate Hn5 | discriminate Hn4
            | exfalso; congruence]]).
Qed.

Lemma skipped_weekends_of_2025_witness :
  let w := world_complete "231" in
  is_Some (month_map !! "2") /\ In 4 weekends
  /\ start_result w = Ok "container" /\ stop_result w = Ok tt
  /\ (snd (run (check_flight_price w "2" "Oslo" "Rome" 4)) = Ok None
      <-> (4 = 5 /\ "2" <> "8") \/ (4 = 4 /\ "2" = "2")).
Proof.
  intros w.
  assert (H1 : is_Some (month_map !! "2")) by (vm_compute; eauto).
  assert (H2 : In 4 weekends) by (simpl; lia).
  assert (H3 : start_result w = Ok "container") by reflexivity.
  assert (H4 : stop_result w = Ok tt) by reflexivity.
  refine (conj H1 (conj H2 (conj H3 (conj H4 _)))).
  exact (skipped_weekends_of_2025 w "2" "Oslo" "Rome" "container" 4
           H1 H2 H3 H4).
Defined.

(* ===================================================================== *)
(** ** Further properties of the handlers of the second example *)
(* ===================================================================== *)

(** The line that the next [input()] returns, and the terminal after it
    was read. *)
Lemma input_reads_one_line (g : LinkedIn.globals) :
  LinkedIn.input g
  = (LinkedIn.typed (LinkedIn.terminal g)
       (LinkedIn.cursor (LinkedIn.terminal g)),
     LinkedIn.Globals
       (LinkedIn.Console (LinkedIn.typed (LinkedIn.terminal g))
          (S (LinkedIn.cursor (LinkedIn.terminal g))))
       (LinkedIn.result0 g)).
Proof. reflexivity. Qed.

(** One step of a run in which the operator is asked, for input or for
    a safety check, and types [exit] or [quit]: the run is cancelled, the
    line was read, and the stored result is empty. *)
Lemma step_exit (e : Machine.engine) (r : Machine.run LinkedIn.globals) :
  let g := Machine.caller r in
  let line :=
    LinkedIn.typed (LinkedIn.terminal g) (LinkedIn.cursor (LinkedIn.terminal g))
  in
  (exists messages, Machine.st r = Machine.NEEDS_INPUT messages)
  \/ (exists checks op, Machine.st r = Machine.NEEDS_SAFETY_CHECK checks op) ->
  lower (strip line) = "exit" \/ lower (strip line) = "quit" ->
  Machine.step e LinkedIn.the_handlers r
  = Machine.Run Machine.CANCELLED (Machine.told r) (Machine.executed r)
      (LinkedIn.Globals
         (LinkedIn.Console (LinkedIn.typed (LinkedIn.terminal g))
            (S (LinkedIn.cursor (LinkedIn.terminal g))))
         None).
Proof.
  intros g line Hst Hline.
  assert (Hin : lower (strip line) ∈ ["exit"; "quit"]).
  { rewrite list_elem_of_In. destruct Hline as [H|H]; rewrite H; simpl; auto. }
  unfold Machine.step.
  destruct Hst as [[messages ->]|(checks & op & ->)]; simpl.
  - unfold LinkedIn.needs_input_handler. rewrite input_reads_one_line.
    fold g. fold line. rewrite (bool_decide_eq_true_2 _ Hin). reflexivity.
  - unfold LinkedIn.needs_safety_check_handler. rewrite input_reads_one_line.
    fold g. fold line. rewrite (bool_decide_eq_true_2 _ Hin). reflexivity.
Qed.

(** X14.  In a run of the action with the handlers of the second
    example, when the operator is asked for input or for a safety check
    and types [exit] or [quit], in any case and with white space around
    it, the run ends in [CANCELLED] at the next step and stays there: the
    action returns, nothing more is told to the engine or executed, one
    line was read, the stored result is empty, and [main] reports that the
    task was interrupted. *)
Theorem operator_exit_cancels (container : string)
    (auto_result : result (AgentStatus * response)) (e : Machine.engine)
    (g : LinkedIn.globals) (k : nat) :
  let r := Machine.steps e LinkedIn.the_handlers k
             (Machine.start LinkedIn.user_prompt g) in
  let line :=
    LinkedIn.typed (LinkedIn.terminal (Machine.caller r))
                   (LinkedIn.cursor (LinkedIn.terminal (Machine.caller r))) in
  (exists messages, Machine.st r = Machine.NEEDS_INPUT messages)
  \/ (exists checks op, Machine.st r = Machine.NEEDS_SAFETY_CHECK checks op) ->
  lower (strip line) = "exit" \/ lower (strip line) = "quit" ->
  forall n : nat, (1 <= n)%nat ->
    let r' := Machine.steps e LinkedIn.the_handlers (k + n)
                (Machine.start LinkedIn.user_prompt g) in
    Machine.st r' = Machine.CANCELLED
    /\ Machine.told r' = Machine.told r
    /\ Machine.executed r' = Machine.executed r
    /\ LinkedIn.cursor (LinkedIn.terminal (Machine.caller r'))
       = S (LinkedIn.cursor (LinkedIn.terminal (Machine.caller r)))
    /\ LinkedIn.result0 (Machine.caller r') = None
    /\ Machine.action e LinkedIn.the_handlers (k + n) LinkedIn.user_prompt g
       = Some r'
    /\ snd (run (LinkedIn.main (Ok container) auto_result e (k + n) g))
       = Ok (Some LinkedIn.Interrupted).
Proof.
  intros r line Hst Hline n Hn r'.
  assert (E : r' = Machine.step e LinkedIn.the_handlers r).
  { unfold r'. rewrite steps_add. fold r.
    destruct n as [|n]; [lia|]. simpl.
    apply steps_terminal. rewrite (step_exit e r Hst Hline). reflexivity. }
  rewrite (step_exit e r Hst Hline) in E.
  assert (Ha : Machine.action e LinkedIn.the_handlers (k + n)
                 LinkedIn.user_prompt g = Some r').
  { unfold Machine.action. fold r'. rewrite E. reflexivity. }
  repeat split; try (rewrite E; reflexivity); [exact Ha|].
  unfold run, LinkedIn.main, LinkedIn.auto_mode, try_except, mbind, io_bind,
         call, mret, io_ret.
  rewrite Ha, E. reflexivity.
Qed.

Lemma operator_exit_cancels_witness :
  let e := engine_guarded "click" "done" in
  let g := operator ["  Quit "] in
  let r := Machine.steps e LinkedIn.the_handlers 1
             (Machine.start LinkedIn.user_prompt g) in
  let line :=
    LinkedIn.typed (LinkedIn.terminal (Machine.caller r))
                   (LinkedIn.cursor (LinkedIn.terminal (Machine.caller r))) in
  ((exists messages, Machine.st r = Machine.NEEDS_INPUT messages)
   \/ (exists checks op, Machine.st r = Machine.NEEDS_SAFETY_CHECK checks op))
  /\ (lower (strip line) = "exit" \/ lower (strip line) = "quit")
  /\ (1 <= 1)%nat
  /\ snd (run (LinkedIn.main (Ok "container")
                 (Ok (COMPLETE, Response None None)) e (1 + 1) g))
     = Ok (Some LinkedIn.Interrupted).
Proof.
  intros e g r line.
  assert (H1 : (exists messages, Machine.st r = Machine.NEEDS_INPUT messages)
               \/ (exists checks op,
                     Machine.st r = Machine.NEEDS_SAFETY_CHECK checks op)).
  { right. exists [Some "check"], "click". reflexivity. }
  assert (H2 : lower (strip line) = "exit" \/ lower (strip line) = "quit").
  { right. vm_compute. reflexivity. }
  assert (H3 : (1 <= 1)%nat) by lia.
  refine (conj H1 (conj H2 (conj H3 _))).
  exact (proj2 (proj2 (proj2 (proj2 (proj2 (proj2
           (operator_exit_cancels "container"
              (Ok (COMPLETE, Response None None)) e g 1 H1 H2 1 H3))))))).
Defined.

(** The input handler answers with the line without the white space
    around it, in the case in which it was typed. *)
Example input_handler_examples :
  snd (LinkedIn.needs_input_handler [] (operator ["  Quit "])) = None
  /\ snd (LinkedIn.needs_input_handler [] (operator ["  Looks Good "]))
     = Some "Looks Good"
  /\ snd (LinkedIn.needs_input_handler [] (operator [""])) = Some "".
Proof. vm_compute. repeat split. Qed.

(** An engine that asks the operator for input, and finishes with the
    answer as its output. *)
Example exit_at_a_request_for_input :
  let e : Machine.engine := fun told =>
    match told with
    | [_] => Machine.AskInput ["Is this right?"]
    | _ => Machine.Finished (Response (Some "done") None)
    end in
  (Machine.st <$> Machine.action e LinkedIn.the_handlers 2
                    LinkedIn.user_prompt (operator ["EXIT"]))
  = Some Machine.CANCELLED
  /\ (Machine.st <$> Machine.action e LinkedIn.the_handlers 3
                      LinkedIn.user_prompt (operator ["yes"]))
     = Some (Machine.COMPLETE (Response (Some "done") None)).
Proof. vm_compute. split; reflexivity. Qed.

Lemma result_follows_step (e : Machine.engine)
    (r : Machine.run LinkedIn.globals) :
  result_follows_state r ->
  result_follows_state (Machine.step e LinkedIn.the_handlers r).
Proof.
  unfold result_follows_state, Machine.step. intros H.
  destruct (Machine.st r) eqn:Hst; try (rewrite Hst; exact H).
  - destruct (e (Machine.told r)); simpl; try exact H; reflexivity.
  - simpl. unfold LinkedIn.needs_input_handler.
    rewrite input_reads_one_line.
    destruct (bool_decide _); simpl; [reflexivity|exact H].
  - simpl. unfold LinkedIn.needs_safety_check_handler.
    rewrite input_reads_one_line.
    destruct (bool_decide _); simpl; [reflexivity|].
    destruct (bool_decide _); simpl; exact H.
Qed.

Lemma result_follows_steps (e : Machine.engine) (n : nat) :
  forall r : Machine.run LinkedIn.globals,
    result_follows_state r ->
    result_follows_state (Machine.steps e LinkedIn.the_handlers n r).
Proof.
  induction n as [|n IH]; intros r H; [exact H|].
  simpl. apply IH, result_follows_step, H.
Qed.

(** X16.  With the stored result empty at the start, as the module sets
    it, and a desktop that starts, [main] of the second example reports
    the output of the action exactly when the run ends in [COMPLETE]; a
    run that ends in an error, in an unrecognised status, or cancelled by
    the operator is reported as interrupted. *)
Theorem report_follows_final_state (container : string)
    (auto_result : result (AgentStatus * response)) (e : Machine.engine)
    (fuel : nat) (g : LinkedIn.globals) (r : Machine.run LinkedIn.globals) :
  LinkedIn.result0 g = None ->
  Machine.action e LinkedIn.the_handlers fuel LinkedIn.user_prompt g
  = Some r ->
  snd (run (LinkedIn.main (Ok container) auto_result e fuel g))
  = Ok (Some
          match Machine.st r with
          | Machine.COMPLETE output =>
              match output_text output with
              | Some text => LinkedIn.ResultText text
              | None => LinkedIn.Done
              end
          | _ => LinkedIn.Interrupted
          end).
Proof.
  intros Hg Hact.
  assert (Hinv : result_follows_state r).
  { unfold Machine.action in Hact.
    destruct (Machine.terminal _); [|discriminate Hact].
    injection Hact as <-. apply result_follows_steps.
    unfold result_follows_state. simpl. exact Hg. }
  unfold run, LinkedIn.main, LinkedIn.auto_mode, try_except, mbind, io_bind,
         call, mret, io_ret.
  rewrite Hact. simpl. unfold result_follows_state in Hinv. rewrite Hinv.
  destruct (Machine.st r); try reflexivity.
  destruct (output_text output); reflexivity.
Qed.

Lemma report_follows_final_state_witness :
  let e := engine_guarded "click" "done" in
  let g := operator ["exit"] in
  let r := Machine.steps e LinkedIn.the_handlers 2
             (Machine.start LinkedIn.user_prompt g) in
  LinkedIn.result0 g = None
  /\ Machine.action e LinkedIn.the_handlers 2 LinkedIn.user_prompt g = Some r
  /\ snd (run (LinkedIn.main (Ok "container")
                 (Ok (COMPLETE, Response None None)) e 2 g))
     = Ok (Some LinkedIn.Interrupted).
Proof.
  intros e g r.
  assert (H1 : LinkedIn.result0 g = None) by reflexivity.
  assert (H2 : Machine.action e LinkedIn.the_handlers 2 LinkedIn.user_prompt g
               = Some r) by reflexivity.
  refine (conj H1 (conj H2 _)).
  exact (report_follows_final_state "container"
           (Ok (COMPLETE, Response None None)) e 2 g r H1 H2).
Defined.

(** Up to the year 9998 the Sunday of the n-th weekend, for [n] up to
    52, is a day that [date] has. *)
Lemma weekend_below_max (y m n : Z) :
  1 <= y <= 9998 -> 1 <= m <= 12 -> 1 <= n <= 52 ->
  ymd2ord y m (nth_friday y m n + 2) <= MAXORDINAL.
Proof.
  intros Hy Hm Hn.
  pose proof (first_friday_bounds y m) as Hf.
  pose proof (days_in_month_bounds y m Hm) as Hd.
  pose proof (ymd2ord_bounds y m 1 Hm ltac:(lia)) as B.
  pose proof (days_before_year_mono (y + 1) 9999 ltac:(lia)) as B1.
  change (days_before_year 9999) with 3651694 in B1.
  unfold nth_friday, ymd2ord, MAXORDINAL in *. lia.
Qed.

(** X17.  The weekends of a month are numbered without a gap and lie a
    week apart: when the weekend [n + 1] has dates, the weekend [n] has
    dates too, the days seven earlier. *)
Theorem weekends_are_numbered_without_gap (y m n f s : Z) :
  1 <= y <= 9998 -> 1 <= m <= 12 -> 1 <= n <= 51 ->
  get_nth_weekend_dates y m (n + 1) = Ok (Some f, Some s) ->
  get_nth_weekend_dates y m n = Ok (Some (f - 7), Some (s - 7)).
Proof.
  intros Hy Hm Hn H.
  pose proof (first_friday_bounds y m) as Hf.
  rewrite weekend_dates in H
    by (try apply weekend_below_max; lia).
  rewrite weekend_dates by (try apply weekend_below_max; lia).
  destruct ((nth_friday y m (n + 1) <=? days_in_month y m)
            && (nth_friday y m (n + 1) + 2 <=? days_in_month y m)) eqn:E;
    [|discriminate H].
  injection H as <- <-.
  replace ((nth_friday y m n <=? days_in_month y m)
           && (nth_friday y m n + 2 <=? days_in_month y m)) with true
    by (unfold nth_friday in *; lia).
  unfold nth_friday. do 3 f_equal; lia.
Qed.

Lemma weekends_are_numbered_without_gap_witness :
  1 <= 2025 <= 9998 /\ 1 <= 8 <= 12 /\ 1 <= 4 <= 51
  /\ get_nth_weekend_dates 2025 8 (4 + 1) = Ok (Some 29, Some 31)
  /\ get_nth_weekend_dates 2025 8 4 = Ok (Some (29 - 7), Some (31 - 7)).
Proof.
  assert (H1 : 1 <= 2025 <= 9998) by lia.
  assert (H2 : 1 <= 8 <= 12) by lia.
  assert (H3 : 1 <= 4 <= 51) by lia.
  assert (H4 : get_nth_weekend_dates 2025 8 (4 + 1) = Ok (Some 29, Some 31))
    by (vm_compute; reflexivity).
  refine (conj H1 (conj H2 (conj H3 (conj H4 _)))).
  exact (weekends_are_numbered_without_gap 2025 8 4 29 31 H1 H2 H3 H4).
Defined.
